(** * qord: guild channel and guild member models

    A shallow embedding of [qord/models/channels.py] and
    [qord/models/guild_members.py]: the sentinel driven partial-update
    protocol of the [edit] methods, the hydration of entities from payloads,
    the per-role add/remove loops and the channel class factory.

    Python objects that are mutated in place are threaded explicitly: every
    method is a computation over the receiver ([self]) and a [World] that
    holds the shared guild, the log of requests sent to the REST layer and
    the wall clock. *)

From Stdlib Require Import ZArith.
From Stdlib Require DecimalString DecimalZ DecimalPos.
From stdpp Require Import gmap strings list fin_maps.

Set Warnings "-register-all,-clear-no-such-hyp".
Local Open Scope string_scope.
Local Open Scope Z_scope.
Local Open Scope list_scope.
Local Open Scope stdpp_scope.

(** ** Python values at the API boundary *)

(** JSON values placed in request bodies. *)
Inductive JsonValue : Type :=
| JNull
| JBool (b : bool)
| JInt (z : Z)
| JStr (s : string)
| JList (l : list JsonValue).

(** A request body: a Python [dict] with string keys. *)
Abbreviation Json := (gmap string JsonValue).

(** Truth value of a [dict]: [bool(d)] is [len(d) != 0]. *)
Definition dict_truthy (d : Json) : bool := negb (Nat.eqb (size d) 0).

(** Truth value of a tuple of positional arguments: [len(t) != 0]. *)
Definition tuple_truthy {A} (t : list A) : bool := negb (Nat.eqb (length t) 0).

(** A keyword parameter of an [edit] method.  [EMPTY] is the sentinel
    default of [qord._helpers], [PyNone] is an explicit [None] and [Val] an
    explicit value. *)
Inductive Param (A : Type) : Type :=
| EMPTY
| PyNone
| Val (a : A).
Arguments EMPTY {A}.
Arguments PyNone {A}.
Arguments Val {A} a.

(** [p is not EMPTY] *)
Definition is_not_EMPTY {A} (p : Param A) : bool :=
  match p with EMPTY => false | _ => true end.

(** The value a parameter puts in the body when stored as it is:
    [None] becomes JSON [null]. *)
Definition to_json {A} (enc : A → JsonValue) (p : Param A) : JsonValue :=
  match p with Val a => enc a | _ => JNull end.

(** Exceptions raised by the models or surfaced from the REST layer. *)
Inductive exn : Type :=
| ValueError (msg : string)
| TypeError
| NotImplementedError (msg : string)
| HTTPForbidden
| HTTPException.

Inductive result (A : Type) : Type :=
| Ok (a : A)
| Raise (e : exn).
Arguments Ok {A} a.
Arguments Raise {A} e.

(** [datetime] values.  A naive one holds a wall-clock time and no zone; an
    aware one holds an instant, counted in UTC, and the offset of its zone. *)
Inductive datetime : Type :=
| naive (wall : Z)
| aware (utc : Z) (utcoffset : Z).

(** [a < b] on [datetime] values: two naive ones compare by wall-clock time,
    two aware ones by instant, and a naive one with an aware one raises
    [TypeError]. *)
Definition datetime_lt (a b : datetime) : result bool :=
  match a, b with
  | naive x, naive y => Ok (x <? y)
  | aware x _, aware y _ => Ok (x <? y)
  | _, _ => Raise TypeError
  end.

(** ** Collaborators that live outside these two files *)

(** Modelled from the spec: the [User] entity of [qord.models.users], of
    which the member model reads [id], [name] and [avatar]. *)
Module User.
Record t : Type := mk { id : Z; name : string; avatar : option string }.
End User.

(** Modelled from the spec: the [Role] entity of [qord.models.roles], of
    which the member model reads [id]. *)
Module Role.
Record t : Type := mk { id : Z; name : string }.
End Role.

(** Decoded channel payload.  The keys read with [data[...]] are plain
    fields, the keys read with [data.get(...)] are optional.  Snowflakes are
    held as the integers that [int(...)] yields. *)
Module ChannelData.
Record t : Type := mk {
    id : Z;
    type : Z;
    name : string;
    position : option Z;
    parent_id : option Z;
    topic : option string;
    last_message_id : option Z;
    rate_limit_per_user : option Z;
    default_auto_archive_duration : option Z;
    nsfw : option bool;
    last_pin_timestamp : option string;
    bitrate : option Z;
    rtc_region : option string;
    user_limit : option Z;
    video_quality_mode : option Z
  }.
End ChannelData.

(** Decoded member payload, with the same conventions. *)
Module MemberData.
Record t : Type := mk {
    user : User.t;
    nick : option string;
    avatar : option string;
    deaf : option bool;
    mute : option bool;
    pending : option bool;
    premium_since : option string;
    communication_disabled_until : option string;
    joined_at : string;
    roles : option (list Z)
  }.
End MemberData.

(** Modelled from the spec: the guild of [qord.models.guilds] with its role
    cache; [guild.cache.get_role(role_id)] yields the role or [None]. *)
Module Guild.
Record t : Type := mk { id : Z; roles : gmap Z Role.t }.
Definition get_role (g : t) (role_id : Z) : option Role.t := roles g !! role_id.
End Guild.

(** The requests of the REST layer that the models issue. *)
Inductive Request : Type :=
| DeleteChannel (channel_id : Z) (reason : option string)
| EditChannel (channel_id : Z) (json : Json) (reason : option string)
| KickGuildMember (guild_id user_id : Z) (reason : option string)
| EditGuildMember (guild_id user_id : Z) (json : Json) (reason : option string)
| AddGuildMemberRole (guild_id user_id role_id : Z) (reason : option string)
| RemoveGuildMemberRole (guild_id user_id role_id : Z) (reason : option string).

(** The server behind the REST layer: what each call answers, given every
    request sent so far (the current one last).  A call either returns or
    raises. *)
Class RestServer : Type := {
  delete_channel_reply : list Request → result unit;
  edit_channel_reply : list Request → result (option ChannelData.t);
  kick_guild_member_reply : list Request → result unit;
  edit_guild_member_reply : list Request → result MemberData.t;
  add_guild_member_role_reply : list Request → result unit;
  remove_guild_member_role_reply : list Request → result unit
}.

(** Helpers of [qord._helpers] and [datetime] used on timestamps. *)
Class Timestamps : Type := {
  parse_iso_timestamp : string → datetime;
  isoformat : datetime → string
}.

(** Modelled from the spec: [get_optional_snowflake(data, key)] of
    [qord._helpers] yields the snowflake stored under [key], or [None]. *)
Definition get_optional_snowflake (v : option Z) : option Z := v.

(** ** The world and the computations over it *)

(** [now] is the reading of the local clock, which [datetime.now()] hands
    out as a naive [datetime]. *)
Record World : Type := mkWorld {
  guild : Guild.t;
  requests : list Request;
  now : Z
}.

(** A method with receiver [Self]: it yields a value or raises, and leaves a
    receiver and a world. *)
Definition M (Self A : Type) : Type := Self → World → result A * Self * World.

Definition pure {Self A} (a : A) : M Self A := λ self w, (Ok a, self, w).

Definition raise {Self A} (e : exn) : M Self A := λ self w, (Raise e, self, w).

Definition bind {Self A B} (m : M Self A) (k : A → M Self B) : M Self B :=
  λ self w,
    match m self w with
    | (Ok a, self', w') => k a self' w'
    | (Raise e, self', w') => (Raise e, self', w')
    end.

Notation "'let*' x ':=' m 'in' k" := (bind m (λ x, k))
  (at level 10, x name, m at level 100, k at level 200).
Notation "m ';;' k" := (bind m (λ _, k))
  (at level 100, k at level 200, right associativity).

Definition get_self {Self} : M Self Self := λ self w, (Ok self, self, w).
Definition set_self {Self} (s : Self) : M Self unit := λ _ w, (Ok tt, s, w).
Definition get_world {Self} : M Self World := λ self w, (Ok w, self, w).

(** Sending a request: it is logged, then the server answers. *)
Definition send {Self A} (rq : Request) (reply : list Request → result A) : M Self A :=
  λ self w,
    let log := requests w ++ [rq] in
    (reply log, self, mkWorld (guild w) log (now w)).

(** The REST layer, [self._rest]. *)
Module Rest.
Section Rest.
Context `{!RestServer} {Self : Type}.

Definition delete_channel (channel_id : Z) (reason : option string) : M Self unit :=
    send (DeleteChannel channel_id reason) delete_channel_reply.

Definition edit_channel (channel_id : Z) (json : Json) (reason : option string)
    : M Self (option ChannelData.t) :=
    send (EditChannel channel_id json reason) edit_channel_reply.

Definition kick_guild_member (guild_id user_id : Z) (reason : option string) : M Self unit :=
    send (KickGuildMember guild_id user_id reason) kick_guild_member_reply.

Definition edit_guild_member (guild_id user_id : Z) (json : Json) (reason : option string)
    : M Self MemberData.t :=
    send (EditGuildMember guild_id user_id json reason) edit_guild_member_reply.

Definition add_guild_member_role (guild_id user_id role_id : Z) (reason : option string)
    : M Self unit :=
    send (AddGuildMemberRole guild_id user_id role_id reason) add_guild_member_role_reply.

Definition remove_guild_member_role (guild_id user_id role_id : Z) (reason : option string)
    : M Self unit :=
    send (RemoveGuildMemberRole guild_id user_id role_id reason) remove_guild_member_role_reply.
End Rest.
End Rest.

(** ** Pure steps of body construction *)

#[global] Instance result_ret : MRet result := λ _ a, Ok a.
#[global] Instance result_bind : MBind result := λ _ _ k r,
  match r with Ok a => k a | Raise e => Raise e end.

(** Running a step that can only raise inside a method. *)
Definition lift {Self A} (r : result A) : M Self A := λ self w, (r, self, w).

(** [if p is not EMPTY: json[key] = p] *)
Definition put {A} (key : string) (enc : A → JsonValue) (p : Param A) (json : Json) : Json :=
  if is_not_EMPTY p then <[key := to_json enc p]> json else json.

(** [p in (x1, ..., xn)] for a tuple of integers: [None] is in none. *)
Definition py_in (p : Param Z) (xs : list Z) : bool :=
  match p with Val z => existsb (Z.eqb z) xs | _ => false end.

(** Members of [qord.enums.ChannelType] that the channel models name. *)
Class ChannelType : Type := {
  TEXT : Z;
  NEWS : Z;
  CATEGORY : Z;
  VOICE : Z;
  STAGE : Z
}.

(** ** Channels *)

Module GuildChannel.
Record t : Type := mk {
  id : Z;
  type : Z;
  name : string;
  position : Z;
  parent_id : option Z
}.

(** [_update_with_data] assigns every attribute of the receiver, so it is
    given as the receiver it leaves. *)
Definition _update_with_data (data : ChannelData.t) : t :=
  {| id := ChannelData.id data;
     type := ChannelData.type data;
     name := ChannelData.name data;
     position := default 1 (ChannelData.position data);
     parent_id := get_optional_snowflake (ChannelData.parent_id data) |}.

Section methods.
Context `{!RestServer}.

Definition delete (reason : option string) : M t unit :=
  let* self := get_self in
  Rest.delete_channel (id self) reason.

(** The base class leaves [edit] to its subclasses. *)
Definition edit : M t unit :=
  raise (NotImplementedError "edit() must be implemented by subclasses.").
End methods.
End GuildChannel.

Module CategoryChannel.
Definition t : Type := GuildChannel.t.

Definition _update_with_data (data : ChannelData.t) : t :=
  GuildChannel._update_with_data data.

(** The first half of [edit]: the statements that build [json]. *)
Definition edit_json (name : Param string) (position : Param Z) : result Json :=
  let json : Json := ∅ in
  let json := put "name" JStr name json in
  let json := put "position" JInt position json in
  Ok json.

Section methods.
Context `{!RestServer}.

(** [edit]: the body is built, and from [if json:] on it is sent and the
    channel updated with the data that comes back, if any. *)
Definition edit (name : Param string) (position : Param Z) (reason : option string)
  : M t unit :=
  let* json := lift (edit_json name position) in
  if dict_truthy json then
    let* self := get_self in
    let* data := Rest.edit_channel (GuildChannel.id self) json reason in
    match data with
    | Some data => set_self (_update_with_data data)
    | None => pure tt
    end
  else pure tt.
End methods.
End CategoryChannel.

(** [parent.id if parent is not None else None] *)
Definition parent_id_json (parent : Param CategoryChannel.t) : JsonValue :=
  match parent with
  | Val parent => JInt (GuildChannel.id parent)
  | _ => JNull
  end.

Module TextChannel.
Record t : Type := mk {
  base : GuildChannel.t;
  topic : option string;
  last_message_id : option Z;
  slowmode_delay : Z;
  default_auto_archive_duration : Z;
  nsfw : bool;
  last_pin_timestamp : option datetime
}.

Section methods.
Context `{!RestServer, !Timestamps, !ChannelType}.

Definition _update_with_data (data : ChannelData.t) : t :=
  {| base := GuildChannel._update_with_data data;
     topic := ChannelData.topic data;
     last_message_id := get_optional_snowflake (ChannelData.last_message_id data);
     slowmode_delay := default 0 (ChannelData.rate_limit_per_user data);
     default_auto_archive_duration :=
       default 60 (ChannelData.default_auto_archive_duration data);
     nsfw := default false (ChannelData.nsfw data);
     last_pin_timestamp :=
       match ChannelData.last_pin_timestamp data with
       | Some last_pin_timestamp => Some (parse_iso_timestamp last_pin_timestamp)
       | None => None
       end |}.

(** The first half of [edit]: the statements that check the arguments and
    build [json], up to [if json:].  A check that fails raises before
    anything is sent. *)
Definition edit_json
    (name : Param string) (type : Param Z) (position : Param Z) (nsfw : Param bool)
    (parent : Param CategoryChannel.t) (topic : Param string) (slowmode_delay : Param Z)
    (default_auto_archive_duration : Param Z) : result Json :=
  let json : Json := ∅ in
  let json := put "name" JStr name json in
  json ←
    (if is_not_EMPTY type then
       if negb (py_in type [NEWS; TEXT]) then
         Raise (ValueError "type parameter only supports ChannelType.NEWS and TEXT.")
       else Ok (<["type" := to_json JInt type]> json)
     else Ok json);
  let json := put "position" JInt position json in
  let json := put "nsfw" JBool nsfw json in
  let json := put "topic" JStr topic json in
  let json :=
    if is_not_EMPTY slowmode_delay then
      let slowmode_delay :=
        match slowmode_delay with PyNone => Val 0 | _ => slowmode_delay end in
      <["rate_limit_per_user" := to_json JInt slowmode_delay]> json
    else json in
  json ←
    (if is_not_EMPTY default_auto_archive_duration then
       if negb (py_in default_auto_archive_duration [60; 1440; 4320; 10080]) then
         Raise (ValueError ("Invalid value given for default_auto_archive_duration " +:+
                            "supported values are 60, 1440, 4320 and 10080."))
       else Ok (<["default_auto_archive_duration" :=
                    to_json JInt default_auto_archive_duration]> json)
     else Ok json);
  let json :=
    if is_not_EMPTY parent then <["parent_id" := parent_id_json parent]> json else json in
  Ok json.

(** [edit], with the second half from [if json:] on. *)
Definition edit
    (name : Param string) (type : Param Z) (position : Param Z) (nsfw : Param bool)
    (parent : Param CategoryChannel.t) (topic : Param string) (slowmode_delay : Param Z)
    (default_auto_archive_duration : Param Z) (reason : option string) : M t unit :=
  let* json := lift (edit_json name type position nsfw parent topic slowmode_delay
                       default_auto_archive_duration) in
  if dict_truthy json then
    let* self := get_self in
    let* data := Rest.edit_channel (GuildChannel.id (base self)) json reason in
    match data with
    | Some data => set_self (_update_with_data data)
    | None => pure tt
    end
  else pure tt.
End methods.
End TextChannel.

(** [NewsChannel] inherits every method of [TextChannel]. *)
Module NewsChannel := TextChannel.

Module VoiceChannel.
Record t : Type := mk {
  base : GuildChannel.t;
  bitrate : option Z;
  rtc_region : option string;
  user_limit : Z;
  video_quality_mode : Z
}.

Definition _update_with_data (data : ChannelData.t) : t :=
  {| base := GuildChannel._update_with_data data;
     bitrate := ChannelData.bitrate data;
     rtc_region := ChannelData.rtc_region data;
     user_limit := default 0 (ChannelData.user_limit data);
     video_quality_mode := default 1 (ChannelData.video_quality_mode data) |}.

(** The first half of [edit], up to [if json:].  Comparing [None] with an
    integer raises [TypeError]. *)
Definition edit_json
    (name : Param string) (position : Param Z) (bitrate : Param Z)
    (parent : Param CategoryChannel.t) (rtc_region : Param string) (user_limit : Param Z)
    (video_quality_mode : Param Z) : result Json :=
  let json : Json := ∅ in
  let json := put "name" JStr name json in
  let json := put "position" JInt position json in
  let json := put "rtc_region" JStr rtc_region json in
  json ←
    match bitrate with
    | EMPTY => Ok json
    | PyNone => Raise TypeError
    | Val b =>
        if (b <? 8000) || (b >? 128000) then
          Raise (ValueError "Parameter 'bitrate' must be in range of 8000 and 128000")
        else Ok (<["bitrate" := JInt b]> json)
    end;
  let json :=
    if is_not_EMPTY user_limit then
      let user_limit := match user_limit with PyNone => Val 0 | _ => user_limit end in
      <["user_limit" := to_json JInt user_limit]> json
    else json in
  let json := put "video_quality_mode" JInt video_quality_mode json in
  let json :=
    if is_not_EMPTY parent then <["parent_id" := parent_id_json parent]> json else json in
  Ok json.

Section methods.
Context `{!RestServer}.

(** [edit], with the second half from [if json:] on. *)
Definition edit
    (name : Param string) (position : Param Z) (bitrate : Param Z)
    (parent : Param CategoryChannel.t) (rtc_region : Param string) (user_limit : Param Z)
    (video_quality_mode : Param Z) (reason : option string) : M t unit :=
  let* json := lift (edit_json name position bitrate parent rtc_region user_limit
                       video_quality_mode) in
  if dict_truthy json then
    let* self := get_self in
    let* data := Rest.edit_channel (GuildChannel.id (base self)) json reason in
    match data with
    | Some data => set_self (_update_with_data data)
    | None => pure tt
    end
  else pure tt.
End methods.
End VoiceChannel.

(** [StageChannel] inherits every method of [VoiceChannel]. *)
Module StageChannel := VoiceChannel.

(** The classes that [_channel_factory] hands out. *)
Inductive ChannelClass : Type :=
| cls_GuildChannel
| cls_TextChannel
| cls_NewsChannel
| cls_CategoryChannel
| cls_VoiceChannel
| cls_StageChannel.

(** Object identity of two integers, [a is b].  It is decided by the
    interpreter: identical objects are equal, and CPython keeps a single
    object for each integer from -5 to 256. *)
Class IntIdentity : Type := { py_is : Z → Z → bool }.

Definition small_int (z : Z) : Prop := -5 ≤ z ≤ 256.

Section factory.
Context `{!ChannelType, !IntIdentity}.

Definition _channel_factory (type : Z) : ChannelClass :=
  if py_is type TEXT then cls_TextChannel
  else if py_is type NEWS then cls_NewsChannel
  else if py_is type CATEGORY then cls_CategoryChannel
  else if py_is type VOICE then cls_VoiceChannel
  else if py_is type STAGE then cls_StageChannel
  else cls_GuildChannel.
End factory.

(** ** Guild members *)

Module GuildMember.
Record t : Type := mk {
  user : User.t;
  nickname : option string;
  avatar : option string;
  deaf : bool;
  mute : bool;
  pending : bool;
  joined_at : datetime;
  premium_since : option datetime;
  timeout_until : option datetime;
  role_ids : list Z;
  roles : list (option Role.t)
}.

(** The loop of [_update_with_data] that resolves the role ids one by one:
    [for role_id in role_ids: roles.append(guild.cache.get_role(role_id))]. *)
Definition resolve_roles (guild : Guild.t) (role_ids : list Z) : list (option Role.t) :=
  foldl (λ roles role_id, roles ++ [Guild.get_role guild role_id]) [] role_ids.

Section methods.
Context `{!RestServer, !Timestamps}.

(** [_update_with_data] assigns every attribute but [guild], so it is given
    as the receiver it leaves; [guild] is [self.guild] at the time of the
    call. *)
Definition _update_with_data (guild : Guild.t) (data : MemberData.t) : t :=
  let premium_since := MemberData.premium_since data in
  let timeout_until := MemberData.communication_disabled_until data in
  let role_ids := default [] (MemberData.roles data) in
  let roles := resolve_roles guild role_ids in
  {| user := MemberData.user data;
     nickname := MemberData.nick data;
     avatar := MemberData.avatar data;
     deaf := default false (MemberData.deaf data);
     mute := default false (MemberData.mute data);
     pending := default false (MemberData.pending data);
     joined_at := parse_iso_timestamp (MemberData.joined_at data);
     premium_since :=
       match premium_since with
       | Some premium_since => Some (parse_iso_timestamp premium_since)
       | None => None
       end;
     timeout_until :=
       match timeout_until with
       | Some timeout_until => Some (parse_iso_timestamp timeout_until)
       | None => None
       end;
     role_ids := role_ids;
     roles := roles |}.

Definition __init__ (data : MemberData.t) (guild : Guild.t) : t :=
  _update_with_data guild data.

Definition display_name (self : t) : string :=
  match nickname self with
  | Some nick => nick
  | None => User.name (user self)
  end.

Definition display_avatar (self : t) : option string :=
  match avatar self with
  | Some avatar => Some avatar
  | None => User.avatar (user self)
  end.

Definition is_avatar_animated (guild_only : bool) (self : t) : bool :=
  if guild_only then
    match avatar self with
    | None => false
    | Some avatar => String.prefix "a_" avatar
    end
  else
    match display_avatar self with
    | None => false
    | Some display_avatar => String.prefix "a_" display_avatar
    end.

Definition is_boosting (self : t) : bool :=
  match premium_since self with Some _ => true | None => false end.

(** [datetime.now()] is naive, so [now < timeout_until] raises [TypeError]
    when [timeout_until] is aware. *)
Definition is_timed_out : M t bool :=
  let* self := get_self in
  match timeout_until self with
  | None => pure false
  | Some timeout_until =>
      let* w := get_world in
      let now := naive (now w) in
      lift (datetime_lt now timeout_until)
  end.

Definition kick (reason : option string) : M t unit :=
  let* self := get_self in
  let* w := get_world in
  Rest.kick_guild_member (Guild.id (guild w)) (User.id (user self)) reason.

(** The first half of [edit]: the statements that build [json]. *)
Definition edit_json
    (nickname : Param string) (roles : Param (list Role.t)) (mute : Param bool)
    (deaf : Param bool) (timeout_until : Param datetime) : result Json :=
  let json : Json := ∅ in
  let json := put "nick" JStr nickname json in
  let json :=
    if is_not_EMPTY roles then
      let roles := match roles with Val roles => roles | _ => [] end in
      <["roles" := JList (map (λ role, JInt (Role.id role)) roles)]> json
    else json in
  let json := put "mute" JBool mute json in
  let json := put "deaf" JBool deaf json in
  let json :=
    if is_not_EMPTY timeout_until then
      <["communication_disabled_until" :=
          match timeout_until with
          | Val timeout_until => JStr (isoformat timeout_until)
          | _ => JNull
          end]> json
    else json in
  Ok json.

(** [edit], with the second half from [if json:] on: the member is always
    updated with the data that comes back. *)
Definition edit
    (nickname : Param string) (roles : Param (list Role.t)) (mute : Param bool)
    (deaf : Param bool) (timeout_until : Param datetime) (reason : option string)
  : M t unit :=
  let* json := lift (edit_json nickname roles mute deaf timeout_until) in
  if dict_truthy json then
    let* self := get_self in
    let* w := get_world in
    let* data :=
      Rest.edit_guild_member (Guild.id (guild w)) (User.id (user self)) json reason in
    let* w := get_world in
    set_self (_update_with_data (guild w) data)
  else pure tt.

(** The loop of [add_roles]; [ret] is the list built so far. *)
Fixpoint add_roles_loop
    (existing_roles : list Z) (guild_id user_id : Z) (ignore_extra : bool)
    (reason : option string) (roles : list Role.t) (ret : list (option Role.t))
  : M t (list (option Role.t)) :=
  match roles with
  | [] => pure ret
  | role :: roles =>
      if bool_decide (Role.id role ∈ existing_roles) && ignore_extra then
        add_roles_loop existing_roles guild_id user_id ignore_extra reason roles ret
      else
        Rest.add_guild_member_role guild_id user_id (Role.id role) reason ;;
        add_roles_loop existing_roles guild_id user_id ignore_extra reason roles
          (ret ++ [Some role])
  end.

Definition add_roles
    (roles : list Role.t) (overwrite : bool) (ignore_extra : bool)
    (reason : option string) : M t (list (option Role.t)) :=
  if tuple_truthy roles && overwrite then
    edit EMPTY (Val roles) EMPTY EMPTY EMPTY reason ;;
    let* self := get_self in
    pure (GuildMember.roles self)
  else
    let ret := [] in
    let* self := get_self in
    let existing_roles := role_ids self in
    let* w := get_world in
    let guild_id := Guild.id (guild w) in
    let user_id := User.id (user self) in
    add_roles_loop existing_roles guild_id user_id ignore_extra reason roles ret.

(** The loop of [remove_roles]. *)
Fixpoint remove_roles_loop
    (existing_roles : list Z) (guild_id user_id : Z) (ignore_extra : bool)
    (reason : option string) (roles : list Role.t) (ret : list (option Role.t))
  : M t (list (option Role.t)) :=
  match roles with
  | [] => pure ret
  | role :: roles =>
      if negb (bool_decide (Role.id role ∈ existing_roles)) && ignore_extra then
        remove_roles_loop existing_roles guild_id user_id ignore_extra reason roles ret
      else
        Rest.remove_guild_member_role guild_id user_id (Role.id role) reason ;;
        remove_roles_loop existing_roles guild_id user_id ignore_extra reason roles
          (ret ++ [Some role])
  end.

Definition remove_roles
    (roles : list Role.t) (ignore_extra : bool) (reason : option string)
  : M t (list (option Role.t)) :=
  if negb (tuple_truthy roles) then
    edit EMPTY (Val []) EMPTY EMPTY EMPTY reason ;;
    let* self := get_self in
    pure (GuildMember.roles self)
  else
    let ret := [] in
    let* self := get_self in
    let existing_roles := role_ids self in
    let* w := get_world in
    let guild_id := Guild.id (guild w) in
    let user_id := User.id (user self) in
    remove_roles_loop existing_roles guild_id user_id ignore_extra reason roles ret.
End methods.
End GuildMember.

(** ** Further members of the channel models *)

(** [str(n)] of an integer: its decimal numeral, after a [-] when it is
    negative. *)
Definition py_str (n : Z) : string :=
  DecimalString.NilZero.string_of_int (Z.to_int n).

(** The property [GuildChannel.mention]: [f"<#{self.id}>"]. *)
Definition GuildChannel_mention (self : GuildChannel.t) : string :=
  "<#" +:+ py_str (GuildChannel.id self) +:+ ">".

(** A channel of any of the classes, as the channel cache of a guild holds
    them. *)
Inductive Channel : Type :=
| a_GuildChannel (c : GuildChannel.t)
| a_TextChannel (c : TextChannel.t)
| a_NewsChannel (c : NewsChannel.t)
| a_CategoryChannel (c : CategoryChannel.t)
| a_VoiceChannel (c : VoiceChannel.t)
| a_StageChannel (c : StageChannel.t).

(** The attributes that every channel inherits from [GuildChannel]. *)
Definition Channel_base (channel : Channel) : GuildChannel.t :=
  match channel with
  | a_GuildChannel c | a_CategoryChannel c => c
  | a_TextChannel c | a_NewsChannel c => TextChannel.base c
  | a_VoiceChannel c | a_StageChannel c => VoiceChannel.base c
  end.

(** The property [CategoryChannel.channels]; [cached] is the sequence that
    [self.guild.cache.channels()] returns at the time of the call.  A
    [parent_id] of [None] equals no id. *)
Definition CategoryChannel_channels (cached : list Channel) (self : CategoryChannel.t)
  : list Channel :=
  filter (λ channel,
            GuildChannel.parent_id (Channel_base channel) = Some (GuildChannel.id self))
    cached.

(** * Vocabulary of the properties *)

(** ** Worlds and requests *)

(** The world after one more request was sent. *)
Definition sent (w : World) (rq : Request) : World :=
  mkWorld (guild w) (requests w ++ [rq]) (now w).

(** The world after the requests [rqs] were sent one after the other. *)
Definition sent_all (w : World) (rqs : list Request) : World :=
  mkWorld (guild w) (requests w ++ rqs) (now w).

(** The world at a later reading of the clock. *)
Definition at_time (w : World) (t : Z) : World :=
  mkWorld (guild w) (requests w) t.

(** The body that a request carries, if it carries one. *)
Definition body_of (rq : Request) : option Json :=
  match rq with
  | EditChannel _ json _ | EditGuildMember _ _ json _ => Some json
  | _ => None
  end.

(** The bodies of the requests sent between the worlds [w] and [w']. *)
Definition outgoing (w w' : World) : list Json :=
  omap body_of (drop (length (requests w)) (requests w')).

(** ** Request bodies *)

(** [if b: json[key] = v], the shape of every step of body construction
    once its validation has passed. *)
Definition put_val (b : bool) (key : string) (v : JsonValue) (json : Json) : Json :=
  if b then <[key := v]> json else json.

(** How many keys a parameter contributes: one if it was passed. *)
Definition passed {A} (p : Param A) : nat := if is_not_EMPTY p then 1%nat else 0%nat.

(** The value stored for a slowmode delay or user limit: [None] becomes 0. *)
Definition zero_if_None (p : Param Z) : JsonValue :=
  match p with Val z => JInt z | _ => JInt 0 end.

(** The value stored for [roles]: the ids of the roles, none for [None]. *)
Definition role_ids_json (roles : Param (list Role.t)) : JsonValue :=
  JList (map (λ role, JInt (Role.id role))
           match roles with Val roles => roles | _ => [] end).

(** The value stored for [timeout_until]: its ISO form, or [null]. *)
Definition timeout_json `{!Timestamps} (timeout_until : Param datetime) : JsonValue :=
  match timeout_until with
  | Val timeout_until => JStr (isoformat timeout_until)
  | _ => JNull
  end.

(** An explicit [type] passes the check of [TextChannel.edit]. *)
Definition type_accepted `{!ChannelType} (type : Param Z) : Prop :=
  type = EMPTY ∨ type = Val NEWS ∨ type = Val TEXT.

(** An explicit [default_auto_archive_duration] passes the check. *)
Definition duration_accepted (d : Param Z) : Prop :=
  d = EMPTY ∨ d = Val 60 ∨ d = Val 1440 ∨ d = Val 4320 ∨ d = Val 10080.

(** An explicit [bitrate] passes the check of [VoiceChannel.edit]. *)
Definition bitrate_accepted (bitrate : Param Z) : Prop :=
  bitrate = EMPTY ∨ ∃ b, bitrate = Val b ∧ 8000 ≤ b ≤ 128000.

Definition TextChannel_body name type position nsfw (parent : Param CategoryChannel.t)
    topic slowmode_delay default_auto_archive_duration : Json :=
  put_val (is_not_EMPTY parent) "parent_id" (parent_id_json parent)
    (put_val (is_not_EMPTY default_auto_archive_duration) "default_auto_archive_duration"
       (to_json JInt default_auto_archive_duration)
    (put_val (is_not_EMPTY slowmode_delay) "rate_limit_per_user" (zero_if_None slowmode_delay)
    (put_val (is_not_EMPTY topic) "topic" (to_json JStr topic)
    (put_val (is_not_EMPTY nsfw) "nsfw" (to_json JBool nsfw)
    (put_val (is_not_EMPTY position) "position" (to_json JInt position)
    (put_val (is_not_EMPTY type) "type" (to_json JInt type)
    (put_val (is_not_EMPTY name) "name" (to_json JStr name) ∅))))))).

Definition VoiceChannel_body name position bitrate (parent : Param CategoryChannel.t)
    rtc_region user_limit video_quality_mode : Json :=
  put_val (is_not_EMPTY parent) "parent_id" (parent_id_json parent)
    (put_val (is_not_EMPTY video_quality_mode) "video_quality_mode"
       (to_json JInt video_quality_mode)
    (put_val (is_not_EMPTY user_limit) "user_limit" (zero_if_None user_limit)
    (put_val (is_not_EMPTY bitrate) "bitrate" (to_json JInt bitrate)
    (put_val (is_not_EMPTY rtc_region) "rtc_region" (to_json JStr rtc_region)
    (put_val (is_not_EMPTY position) "position" (to_json JInt position)
    (put_val (is_not_EMPTY name) "name" (to_json JStr name) ∅)))))).

Definition CategoryChannel_body name position : Json :=
  put_val (is_not_EMPTY position) "position" (to_json JInt position)
    (put_val (is_not_EMPTY name) "name" (to_json JStr name) ∅).

Definition GuildMember_body `{!Timestamps} nickname roles mute deaf timeout_until : Json :=
  put_val (is_not_EMPTY timeout_until) "communication_disabled_until"
    (timeout_json timeout_until)
    (put_val (is_not_EMPTY deaf) "deaf" (to_json JBool deaf)
    (put_val (is_not_EMPTY mute) "mute" (to_json JBool mute)
    (put_val (is_not_EMPTY roles) "roles" (role_ids_json roles)
    (put_val (is_not_EMPTY nickname) "nick" (to_json JStr nickname) ∅)))).

(** ** Roles *)

(** The role lists of [m] correspond as they do right after a hydration
    against the guild [g]: same length, and [roles[i]] is the cache lookup of
    [role_ids[i]]. *)
Definition roles_resolved_against (g : Guild.t) (m : GuildMember.t) : Prop :=
  length (GuildMember.roles m) = length (GuildMember.role_ids m) ∧
  ∀ (i : nat) (role_id : Z),
    GuildMember.role_ids m !! i = Some role_id →
    GuildMember.roles m !! i = Some (Guild.get_role g role_id).

(** The correspondence holds for the role cache of some hydration time. *)
Definition roles_in_step (m : GuildMember.t) : Prop :=
  ∃ g : Guild.t, roles_resolved_against g m.

(** What a method may do to the member: leave it, or re-hydrate it against
    the guild of the world it ran in. *)
Definition left_or_rehydrated {A} (m : M GuildMember.t A) : Prop :=
  ∀ (self : GuildMember.t) (w : World),
    (m self w).1.2 = self ∨ roles_resolved_against (guild w) (m self w).1.2.

(** The given roles that the member does not hold yet, in the given order. *)
Definition roles_to_add (self : GuildMember.t) (roles : list Role.t) : list Role.t :=
  filter (λ role, Role.id role ∉ GuildMember.role_ids self) roles.

(** One add-role request per role, in order. *)
Definition add_role_calls (guild_id user_id : Z) (reason : option string)
    (roles : list Role.t) : list Request :=
  map (λ role, AddGuildMemberRole guild_id user_id (Role.id role) reason) roles.

(** The common shape of the loops of [add_roles] and [remove_roles]: each
    role is skipped or gets one request, and the roles that got one are
    collected. *)
Fixpoint per_role_loop (skip : Role.t → bool) (request : Role.t → Request)
    (reply : list Request → result unit) (roles : list Role.t)
    (ret : list (option Role.t)) : M GuildMember.t (list (option Role.t)) :=
  match roles with
  | [] => pure ret
  | role :: roles =>
      if skip role then per_role_loop skip request reply roles ret
      else
        send (request role) reply ;;
        per_role_loop skip request reply roles (ret ++ [Some role])
  end.

(** One remove-role request per role, in order. *)
Definition remove_role_calls (guild_id user_id : Z) (reason : option string)
    (roles : list Role.t) : list Request :=
  map (λ role, RemoveGuildMemberRole guild_id user_id (Role.id role) reason) roles.

(** Every request of [rqs] sent from the world [w] on is answered. *)
Definition all_answered (reply : list Request → result unit) (w : World)
    (rqs : list Request) : Prop :=
  ∀ n : nat, (n < length rqs)%nat → reply (requests w ++ take (S n) rqs) = Ok tt.

(** In the words of the specification: removing all roles is a single bulk
    edit request whose body carries an empty role list, after which the
    member is re-hydrated from the response and its resolved roles are
    returned. *)
Definition clear_roles_in_bulk `{!RestServer, !Timestamps} (reason : option string)
  : M GuildMember.t (list (option Role.t)) :=
  λ self w,
    let body : Json := {["roles" := JList []]} in
    let w' := sent w (EditGuildMember (Guild.id (guild w))
                        (User.id (GuildMember.user self)) body reason) in
    match edit_guild_member_reply (requests w') with
    | Ok data =>
        let self' := GuildMember._update_with_data (guild w) data in
        (Ok (GuildMember.roles self'), self', w')
    | Raise e => (Raise e, self, w')
    end.

(** ** A sample deployment *)

Module Sample.
Definition channel_types : ChannelType :=
  {| TEXT := 0; NEWS := 5; CATEGORY := 4; VOICE := 2; STAGE := 13 |}.

Definition timestamps : Timestamps :=
  {| parse_iso_timestamp := λ s, aware (Z.of_nat (String.length s)) 0;
     isoformat := λ _, "2022-03-01T00:00:00" |}.

Definition identity : IntIdentity := {| py_is := Z.eqb |}.

Definition moderator : Role.t := Role.mk 11 "moderator".
Definition helper : Role.t := Role.mk 12 "helper".

Definition user : User.t := User.mk 7 "ada" None.

(** A member payload naming the roles 11 and 99. *)
Definition member_data : MemberData.t :=
  MemberData.mk user (Some "Ada") None None None None None None "2022-01-01" (Some [11; 99]).

(** A server that accepts every request; an edited channel comes back empty
    and an edited member comes back as [member_data]. *)
Definition server : RestServer :=
  {| delete_channel_reply := λ _, Ok tt;
     edit_channel_reply := λ _, Ok None;
     kick_guild_member_reply := λ _, Ok tt;
     edit_guild_member_reply := λ _, Ok member_data;
     add_guild_member_role_reply := λ _, Ok tt;
     remove_guild_member_role_reply := λ _, Ok tt |}.

(** A guild whose cache knows the roles 11 and 12, but not 99. *)
Definition the_guild : Guild.t :=
  Guild.mk 1 (<[11 := moderator]> (<[12 := helper]> ∅)).

Definition world : World := mkWorld the_guild [] 1000.

Definition member : GuildMember.t :=
  @GuildMember.__init__ timestamps member_data the_guild.

Definition text_channel : TextChannel.t :=
  TextChannel.mk (GuildChannel.mk 21 0 "general" 1 None) None None 0 60 false None.

Definition voice_channel : VoiceChannel.t :=
  VoiceChannel.mk (GuildChannel.mk 22 2 "lounge" 2 None) (Some 64000) None 0 1.

(** A server that refuses to add roles. *)
Definition strict_server : RestServer :=
  {| delete_channel_reply := λ _, Ok tt;
     edit_channel_reply := λ _, Ok None;
     kick_guild_member_reply := λ _, Ok tt;
     edit_guild_member_reply := λ _, Ok member_data;
     add_guild_member_role_reply := λ _, Raise HTTPForbidden;
     remove_guild_member_role_reply := λ _, Ok tt |}.

(** A member payload with a timeout, which [timestamps] parses to an aware
    [datetime] at the instant 25. *)
Definition timed_out_data : MemberData.t :=
  MemberData.mk user None None None None None None (Some "2030-01-01T00:00:00+00:00")
    "2022-01-01" None.
End Sample.

(** ** More of the sample deployment *)

Module Sample2.
(** Naive timestamps written as a number of seconds in decimal. *)
Definition seconds : Timestamps :=
  {| parse_iso_timestamp := λ s,
       match DecimalString.NilZero.int_of_string s with
       | Some d => naive (Z.of_int d)
       | None => naive 0
       end;
     isoformat := λ t,
       match t with
       | naive wall => py_str wall
       | aware utc utcoffset => py_str utc +:+ "+" +:+ py_str utcoffset
       end |}.

(** A member with a naive timeout until the time 2000. *)
Definition muted_member : GuildMember.t :=
  GuildMember.mk Sample.user None None false false false (naive 10) None
    (Some (naive 2000)) [] [].

(** A member payload with a timeout until the instant 2000. *)
Definition muted_data : MemberData.t :=
  MemberData.mk Sample.user None (Some "a_1f3c") None None None None (Some "2000")
    "1000" (Some [12]).

(** A server that answers a member edit with [muted_data] and an edited
    channel with a payload of its own. *)
Definition renamed : ChannelData.t :=
  ChannelData.mk 21 0 "lobby" None (Some 30) None None None None None None None None
    None None.

Definition server : RestServer :=
  {| delete_channel_reply := λ _, Ok tt;
     edit_channel_reply := λ _, Ok (Some renamed);
     kick_guild_member_reply := λ _, Raise HTTPForbidden;
     edit_guild_member_reply := λ _, Ok muted_data;
     add_guild_member_role_reply := λ _, Ok tt;
     remove_guild_member_role_reply := λ _, Ok tt |}.

Definition category : CategoryChannel.t := GuildChannel.mk 30 4 "rooms" 0 None.

Definition lounge : VoiceChannel.t :=
  VoiceChannel.mk (GuildChannel.mk 22 2 "lounge" 2 (Some 30)) (Some 64000) None 0 1.

Definition cached : list Channel :=
  [a_CategoryChannel category; a_TextChannel Sample.text_channel; a_VoiceChannel lounge].

(** A second channel object with the id of [Sample.text_channel]. *)
Definition stale_copy : GuildChannel.t := GuildChannel.mk 21 0 "old-name" 5 None.
End Sample2.

(** * Properties *)

(** ** Hydration of members *)

Lemma resolve_roles_app (g : Guild.t) (acc : list (option Role.t)) (role_ids : list Z) :
  foldl (λ roles role_id, roles ++ [Guild.get_role g role_id]) acc role_ids
  = acc ++ map (Guild.get_role g) role_ids.
Proof.
  revert acc. induction role_ids as [|role_id role_ids IH]; intros acc; simpl.
  - by rewrite app_nil_r.
  - rewrite IH. by rewrite <- app_assoc.
Qed.

Lemma resolve_roles_map (g : Guild.t) (role_ids : list Z) :
  GuildMember.resolve_roles g role_ids = map (Guild.get_role g) role_ids.
Proof. unfold GuildMember.resolve_roles. by rewrite resolve_roles_app. Qed.

Lemma hydrated_roles_resolved `{!Timestamps} (g : Guild.t) (data : MemberData.t) :
  roles_resolved_against g (GuildMember._update_with_data g data).
Proof.
  unfold roles_resolved_against; simpl. rewrite resolve_roles_map. split.
  - by rewrite length_map.
  - intros i role_id Hi. by rewrite list_lookup_fmap, Hi.
Qed.

(** ** What an [edit] does once its body is built *)

Section edit_runs.
Context `{!RestServer, !Timestamps, !ChannelType}.

Lemma TextChannel_edit_run name type position nsfw parent topic slowmode_delay
    default_auto_archive_duration reason (self : TextChannel.t) (w : World) :
  TextChannel.edit name type position nsfw parent topic slowmode_delay
    default_auto_archive_duration reason self w =
  match TextChannel.edit_json name type position nsfw parent topic slowmode_delay
          default_auto_archive_duration with
  | Raise e => (Raise e, self, w)
  | Ok json =>
      if dict_truthy json then
        let w' := sent w (EditChannel (GuildChannel.id (TextChannel.base self)) json reason) in
        match edit_channel_reply (requests w') with
        | Ok (Some data) => (Ok tt, TextChannel._update_with_data data, w')
        | Ok None => (Ok tt, self, w')
        | Raise e => (Raise e, self, w')
        end
      else (Ok tt, self, w)
  end.
Proof.
  unfold TextChannel.edit, bind, lift.
  destruct (TextChannel.edit_json _ _ _ _ _ _ _ _) as [json|e]; [|done].
  destruct (dict_truthy json); [|done].
  unfold get_self, Rest.edit_channel, send, sent; simpl.
  by destruct (edit_channel_reply _) as [[data|]|e].
Qed.

Lemma VoiceChannel_edit_run name position bitrate parent rtc_region user_limit
    video_quality_mode reason (self : VoiceChannel.t) (w : World) :
  VoiceChannel.edit name position bitrate parent rtc_region user_limit
    video_quality_mode reason self w =
  match VoiceChannel.edit_json name position bitrate parent rtc_region user_limit
          video_quality_mode with
  | Raise e => (Raise e, self, w)
  | Ok json =>
      if dict_truthy json then
        let w' := sent w (EditChannel (GuildChannel.id (VoiceChannel.base self)) json reason) in
        match edit_channel_reply (requests w') with
        | Ok (Some data) => (Ok tt, VoiceChannel._update_with_data data, w')
        | Ok None => (Ok tt, self, w')
        | Raise e => (Raise e, self, w')
        end
      else (Ok tt, self, w)
  end.
Proof.
  unfold VoiceChannel.edit, bind, lift.
  destruct (VoiceChannel.edit_json _ _ _ _ _ _ _) as [json|e]; [|done].
  destruct (dict_truthy json); [|done].
  unfold get_self, Rest.edit_channel, send, sent; simpl.
  by destruct (edit_channel_reply _) as [[data|]|e].
Qed.

Lemma CategoryChannel_edit_run name position reason (self : CategoryChannel.t) (w : World) :
  CategoryChannel.edit name position reason self w =
  match CategoryChannel.edit_json name position with
  | Raise e => (Raise e, self, w)
  | Ok json =>
      if dict_truthy json then
        let w' := sent w (EditChannel (GuildChannel.id self) json reason) in
        match edit_channel_reply (requests w') with
        | Ok (Some data) => (Ok tt, CategoryChannel._update_with_data data, w')
        | Ok None => (Ok tt, self, w')
        | Raise e => (Raise e, self, w')
        end
      else (Ok tt, self, w)
  end.
Proof.
  unfold CategoryChannel.edit, bind, lift.
  destruct (CategoryChannel.edit_json _ _) as [json|e]; [|done].
  destruct (dict_truthy json); [|done].
  unfold get_self, Rest.edit_channel, send, sent; simpl.
  by destruct (edit_channel_reply _) as [[data|]|e].
Qed.

Lemma GuildMember_edit_run nickname roles mute deaf timeout_until reason
    (self : GuildMember.t) (w : World) :
  GuildMember.edit nickname roles mute deaf timeout_until reason self w =
  match GuildMember.edit_json nickname roles mute deaf timeout_until with
  | Raise e => (Raise e, self, w)
  | Ok json =>
      if dict_truthy json then
        let w' := sent w (EditGuildMember (Guild.id (guild w))
                            (User.id (GuildMember.user self)) json reason) in
        match edit_guild_member_reply (requests w') with
        | Ok data => (Ok tt, GuildMember._update_with_data (guild w) data, w')
        | Raise e => (Raise e, self, w')
        end
      else (Ok tt, self, w)
  end.
Proof.
  unfold GuildMember.edit, bind, lift.
  destruct (GuildMember.edit_json _ _ _ _ _) as [json|e]; [|done].
  destruct (dict_truthy json); [|done].
  unfold get_self, get_world, Rest.edit_guild_member, send, sent, set_self; simpl.
  by destruct (edit_guild_member_reply _) as [data|e].
Qed.
End edit_runs.

(** The base [GuildChannel.edit] is not an edit operation of its own: it
    raises, and sends nothing. *)
Remark GuildChannel_edit_not_implemented (self : GuildChannel.t) (w : World) :
  ∃ msg, GuildChannel.edit self w = (Raise (NotImplementedError msg), self, w).
Proof. by eexists. Qed.

(** C2.  An [edit] of a text, voice or category channel or of a member in
    which every field is left at [EMPTY] returns normally, sends no request
    to the REST layer and leaves the entity as it was. *)
Theorem edit_all_omitted_is_noop `{!RestServer, !Timestamps, !ChannelType} :
  (∀ reason (self : TextChannel.t) (w : World),
     TextChannel.edit EMPTY EMPTY EMPTY EMPTY EMPTY EMPTY EMPTY EMPTY reason self w
     = (Ok tt, self, w)) ∧
  (∀ reason (self : VoiceChannel.t) (w : World),
     VoiceChannel.edit EMPTY EMPTY EMPTY EMPTY EMPTY EMPTY EMPTY reason self w
     = (Ok tt, self, w)) ∧
  (∀ reason (self : CategoryChannel.t) (w : World),
     CategoryChannel.edit EMPTY EMPTY reason self w = (Ok tt, self, w)) ∧
  (∀ reason (self : GuildMember.t) (w : World),
     GuildMember.edit EMPTY EMPTY EMPTY EMPTY EMPTY reason self w = (Ok tt, self, w)).
Proof.
  split; [|split; [|split]]; intros.
  - by rewrite TextChannel_edit_run.
  - by rewrite VoiceChannel_edit_run.
  - by rewrite CategoryChannel_edit_run.
  - by rewrite GuildMember_edit_run.
Qed.

(** ** Request bodies *)

Lemma is_not_EMPTY_true {A} (p : Param A) : is_not_EMPTY p = true ↔ p ≠ EMPTY.
Proof. destruct p; simpl; split; congruence. Qed.

Lemma put_put_val {A} key enc (p : Param A) json :
  put key enc p json = put_val (is_not_EMPTY p) key (to_json enc p) json.
Proof. done. Qed.

Lemma elem_of_dom_put_val k b key v (json : Json) :
  k ∈ dom (put_val b key v json) ↔ (k = key ∧ b = true) ∨ k ∈ dom json.
Proof.
  unfold put_val. destruct b.
  - rewrite dom_insert_L. set_solver.
  - naive_solver.
Qed.

Lemma lookup_put_val_ne k b key v (json : Json) :
  key ≠ k → put_val b key v json !! k = json !! k.
Proof. intros Hne. unfold put_val. destruct b; [by rewrite lookup_insert_ne|done]. Qed.

Lemma lookup_put_val_eq key v (json : Json) :
  put_val true key v json !! key = Some v.
Proof. unfold put_val. by rewrite lookup_insert_eq. Qed.

Lemma size_put_val b key v (json : Json) :
  json !! key = None →
  size (put_val b key v json) = ((if b then 1 else 0) + size json)%nat.
Proof.
  intros Hfresh. unfold put_val. destruct b; [|done].
  by rewrite map_size_insert_None.
Qed.

Lemma outgoing_none (w : World) : outgoing w w = [].
Proof. unfold outgoing. by rewrite drop_all. Qed.

Lemma outgoing_sent (w : World) (rq : Request) :
  outgoing w (sent w rq) = omap body_of [rq].
Proof. unfold outgoing, sent; simpl. by rewrite drop_app_length. Qed.

Lemma dict_truthy_size (json : Json) : dict_truthy json = true ↔ size json ≠ 0%nat.
Proof.
  unfold dict_truthy. destruct (Nat.eqb_spec (size json) 0) as [->|Hne]; simpl; split; done.
Qed.

(** Rewriting lookups and sizes along a chain of [put_val] steps. *)
Ltac chain_lookup :=
  repeat (rewrite lookup_put_val_ne by done); try apply lookup_empty.

Ltac chain_size :=
  repeat (rewrite size_put_val by chain_lookup); rewrite map_size_empty.

Ltac chain_dom :=
  repeat rewrite elem_of_dom_put_val; rewrite dom_empty_L, elem_of_empty;
  repeat rewrite is_not_EMPTY_true.

(** *** Text channels *)

Section text_body.
Context `{!ChannelType}.

Lemma py_in_spec (p : Param Z) (xs : list Z) :
  py_in p xs = true ↔ ∃ z, p = Val z ∧ z ∈ xs.
Proof.
  destruct p as [| |z]; simpl; [naive_solver..|].
  rewrite existsb_exists. split.
  - intros (x & Hx & Heq). apply Z.eqb_eq in Heq as ->.
    exists x. split; [done|]. by apply list_elem_of_In.
  - intros (x & Heq & Hx). simplify_eq.
    exists x. split; [by apply list_elem_of_In|apply Z.eqb_refl].
Qed.

Lemma type_accepted_spec (type : Param Z) :
  type_accepted type ↔ is_not_EMPTY type = false ∨ py_in type [NEWS; TEXT] = true.
Proof.
  unfold type_accepted. rewrite py_in_spec. split.
  - intros [-> | [-> | ->]]; [by left|right; eexists; split; [done|set_solver]..].
  - intros [Hp|(z & -> & Hz)]; [destruct type; naive_solver|].
    set_solver.
Qed.

Lemma duration_accepted_spec (d : Param Z) :
  duration_accepted d ↔ is_not_EMPTY d = false ∨ py_in d [60; 1440; 4320; 10080] = true.
Proof.
  unfold duration_accepted. rewrite py_in_spec. split.
  - intros [-> | [-> | [-> | [-> | ->]]]]; [by left|right; eexists; split; [done|set_solver]..].
  - intros [Hp|(z & -> & Hz)]; [destruct d; naive_solver|].
    set_solver.
Qed.

(** [TextChannel.edit] builds a body exactly when both checks pass, and the
    body is then the chain of the eight conditional stores. *)
Lemma TextChannel_edit_json_Ok name type position nsfw parent topic slowmode_delay
    default_auto_archive_duration json :
  TextChannel.edit_json name type position nsfw parent topic slowmode_delay
    default_auto_archive_duration = Ok json ↔
  type_accepted type ∧ duration_accepted default_auto_archive_duration ∧
  json = TextChannel_body name type position nsfw parent topic slowmode_delay
           default_auto_archive_duration.
Proof.
  rewrite type_accepted_spec, duration_accepted_spec.
  unfold TextChannel.edit_json, TextChannel_body. rewrite !put_put_val.
  destruct (is_not_EMPTY type) eqn:Htype;
    [destruct (py_in type [NEWS; TEXT])|]; simpl;
    (destruct (is_not_EMPTY default_auto_archive_duration) eqn:Hd;
      [destruct (py_in default_auto_archive_duration _)|]; simpl);
    try (split; [done|naive_solver]).
  all: assert (∀ j, (if is_not_EMPTY slowmode_delay
                     then <["rate_limit_per_user" :=
                              to_json JInt match slowmode_delay with
                                           | PyNone => Val 0 | _ => slowmode_delay end]> j
                     else j)
                    = put_val (is_not_EMPTY slowmode_delay) "rate_limit_per_user"
                        (zero_if_None slowmode_delay) j) as ->
    by (intros j; by destruct slowmode_delay).
  all: unfold put_val at 1 2 3; simpl; try rewrite Htype; try rewrite Hd.
  all: split; [intros [= <-]; naive_solver|intros (_ & _ & ->); done].
Qed.
End text_body.

(** *** Voice channels, categories and members *)

Lemma VoiceChannel_edit_json_Ok name position bitrate parent rtc_region user_limit
    video_quality_mode json :
  VoiceChannel.edit_json name position bitrate parent rtc_region user_limit
    video_quality_mode = Ok json ↔
  bitrate_accepted bitrate ∧
  json = VoiceChannel_body name position bitrate parent rtc_region user_limit
           video_quality_mode.
Proof.
  unfold VoiceChannel.edit_json, VoiceChannel_body, bitrate_accepted.
  rewrite !put_put_val.
  assert (∀ j, (if is_not_EMPTY user_limit
                then <["user_limit" :=
                         to_json JInt match user_limit with
                                      | PyNone => Val 0 | _ => user_limit end]> j
                else j)
               = put_val (is_not_EMPTY user_limit) "user_limit" (zero_if_None user_limit) j)
    as Huser by (intros j; by destruct user_limit).
  destruct bitrate as [| |b]; simpl.
  - rewrite Huser. split; [intros [= <-]; naive_solver|intros [_ ->]; done].
  - split; [done|]. intros [[?|(b & ? & _)] _]; done.
  - destruct (Z.ltb_spec b 8000) as [Hlo|Hlo]; simpl.
    { split; [done|]. intros [[?|(b' & ? & ?)] _]; simplify_eq. lia. }
    destruct (Z.gtb_spec b 128000) as [Hhi|Hhi]; simpl.
    { split; [done|]. intros [[?|(b' & ? & ?)] _]; simplify_eq. lia. }
    rewrite Huser. split; [intros [= <-]|intros [_ ->]; done].
    split; [|done]. right. exists b. split; [done|lia].
Qed.

Lemma CategoryChannel_edit_json_Ok name position json :
  CategoryChannel.edit_json name position = Ok json ↔
  json = CategoryChannel_body name position.
Proof.
  unfold CategoryChannel.edit_json, CategoryChannel_body. rewrite !put_put_val.
  split; [by intros [= <-]|by intros ->].
Qed.

Lemma GuildMember_edit_json_Ok `{!Timestamps} nickname roles mute deaf timeout_until json :
  GuildMember.edit_json nickname roles mute deaf timeout_until = Ok json ↔
  json = GuildMember_body nickname roles mute deaf timeout_until.
Proof.
  unfold GuildMember.edit_json, GuildMember_body. rewrite !put_put_val.
  split; [by intros [= <-]|by intros ->].
Qed.

(** *** The body that leaves with the request *)

Section outgoing_bodies.
Context `{!RestServer, !Timestamps, !ChannelType}.

Ltac outgoing_cases H :=
  match type of H with
  | context [match ?r with Ok _ => _ | Raise _ => _ end] =>
      destruct r as [j|e] eqn:Hjson; simpl in H;
      [destruct (dict_truthy j) eqn:Htruthy; simpl in H|];
      [repeat match type of H with
              | context [match ?r with _ => _ end] => destruct r; simpl in H
              end;
       rewrite outgoing_sent in H; simpl in H;
       apply list_elem_of_singleton in H as ->; done
      |rewrite outgoing_none in H; by apply elem_of_nil in H..]
  end.

Lemma TextChannel_outgoing name type position nsfw parent topic slowmode_delay
    default_auto_archive_duration reason (self : TextChannel.t) (w : World) json :
  json ∈ outgoing w (TextChannel.edit name type position nsfw parent topic slowmode_delay
                       default_auto_archive_duration reason self w).2 →
  TextChannel.edit_json name type position nsfw parent topic slowmode_delay
    default_auto_archive_duration = Ok json.
Proof. rewrite TextChannel_edit_run. intros Hin. outgoing_cases Hin. Qed.

Lemma VoiceChannel_outgoing name position bitrate parent rtc_region user_limit
    video_quality_mode reason (self : VoiceChannel.t) (w : World) json :
  json ∈ outgoing w (VoiceChannel.edit name position bitrate parent rtc_region user_limit
                       video_quality_mode reason self w).2 →
  VoiceChannel.edit_json name position bitrate parent rtc_region user_limit
    video_quality_mode = Ok json.
Proof. rewrite VoiceChannel_edit_run. intros Hin. outgoing_cases Hin. Qed.

Lemma CategoryChannel_outgoing name position reason (self : CategoryChannel.t)
    (w : World) json :
  json ∈ outgoing w (CategoryChannel.edit name position reason self w).2 →
  CategoryChannel.edit_json name position = Ok json.
Proof. rewrite CategoryChannel_edit_run. intros Hin. outgoing_cases Hin. Qed.

Lemma GuildMember_outgoing nickname roles mute deaf timeout_until reason
    (self : GuildMember.t) (w : World) json :
  json ∈ outgoing w (GuildMember.edit nickname roles mute deaf timeout_until reason
                       self w).2 →
  GuildMember.edit_json nickname roles mute deaf timeout_until = Ok json.
Proof. rewrite GuildMember_edit_run. intros Hin. outgoing_cases Hin. Qed.
End outgoing_bodies.

Lemma sent_ne (w : World) (rq : Request) : sent w rq ≠ w.
Proof.
  intros Heq. apply (f_equal (λ w, length (requests w))) in Heq.
  simpl in Heq. rewrite length_app in Heq. simpl in Heq. lia.
Qed.

Lemma sent_inj (w : World) (rq rq' : Request) : sent w rq = sent w rq' → rq = rq'.
Proof.
  intros Heq. apply (f_equal requests) in Heq. simpl in Heq.
  by apply app_inj_tail in Heq as [_ ->].
Qed.

Lemma passed_cases {A} (p : Param A) :
  (p = EMPTY ∧ passed p = 0%nat) ∨ (p ≠ EMPTY ∧ passed p = 1%nat).
Proof. destruct p; [by left|by right..]. Qed.

Section edit_worlds.
Context `{!RestServer, !Timestamps, !ChannelType}.

Lemma TextChannel_edit_world name type position nsfw parent topic slowmode_delay
    default_auto_archive_duration reason (self : TextChannel.t) (w : World) :
  (TextChannel.edit name type position nsfw parent topic slowmode_delay
     default_auto_archive_duration reason self w).2 =
  match TextChannel.edit_json name type position nsfw parent topic slowmode_delay
          default_auto_archive_duration with
  | Ok json =>
      if dict_truthy json
      then sent w (EditChannel (GuildChannel.id (TextChannel.base self)) json reason)
      else w
  | Raise _ => w
  end.
Proof.
  rewrite TextChannel_edit_run. destruct (TextChannel.edit_json _ _ _ _ _ _ _ _); [|done].
  destruct (dict_truthy _); [|done]. simpl.
  by destruct (edit_channel_reply _) as [[data|]|e].
Qed.

Lemma VoiceChannel_edit_world name position bitrate parent rtc_region user_limit
    video_quality_mode reason (self : VoiceChannel.t) (w : World) :
  (VoiceChannel.edit name position bitrate parent rtc_region user_limit
     video_quality_mode reason self w).2 =
  match VoiceChannel.edit_json name position bitrate parent rtc_region user_limit
          video_quality_mode with
  | Ok json =>
      if dict_truthy json
      then sent w (EditChannel (GuildChannel.id (VoiceChannel.base self)) json reason)
      else w
  | Raise _ => w
  end.
Proof.
  rewrite VoiceChannel_edit_run. destruct (VoiceChannel.edit_json _ _ _ _ _ _ _); [|done].
  destruct (dict_truthy _); [|done]. simpl.
  by destruct (edit_channel_reply _) as [[data|]|e].
Qed.

Lemma CategoryChannel_edit_world name position reason (self : CategoryChannel.t)
    (w : World) :
  (CategoryChannel.edit name position reason self w).2 =
  match CategoryChannel.edit_json name position with
  | Ok json =>
      if dict_truthy json
      then sent w (EditChannel (GuildChannel.id self) json reason)
      else w
  | Raise _ => w
  end.
Proof.
  rewrite CategoryChannel_edit_run. destruct (CategoryChannel.edit_json _ _); [|done].
  destruct (dict_truthy _); [|done]. simpl.
  by destruct (edit_channel_reply _) as [[data|]|e].
Qed.

Lemma GuildMember_edit_world nickname roles mute deaf timeout_until reason
    (self : GuildMember.t) (w : World) :
  (GuildMember.edit nickname roles mute deaf timeout_until reason self w).2 =
  match GuildMember.edit_json nickname roles mute deaf timeout_until with
  | Ok json =>
      if dict_truthy json
      then sent w (EditGuildMember (Guild.id (guild w)) (User.id (GuildMember.user self))
                     json reason)
      else w
  | Raise _ => w
  end.
Proof.
  rewrite GuildMember_edit_run. destruct (GuildMember.edit_json _ _ _ _ _); [|done].
  destruct (dict_truthy _); [|done]. simpl.
  by destruct (edit_guild_member_reply _) as [data|e].
Qed.
End edit_worlds.

(** When its checks pass and a field is passed, an [edit] sends the body it
    built. *)
Section edit_sends.
Context `{!RestServer, !Timestamps, !ChannelType}.

Lemma TextChannel_edit_sends name type position nsfw parent topic slowmode_delay
    default_auto_archive_duration reason (self : TextChannel.t) (w : World) :
  type_accepted type → duration_accepted default_auto_archive_duration →
  name ≠ EMPTY ∨ type ≠ EMPTY ∨ position ≠ EMPTY ∨ nsfw ≠ EMPTY ∨ parent ≠ EMPTY ∨
  topic ≠ EMPTY ∨ slowmode_delay ≠ EMPTY ∨ default_auto_archive_duration ≠ EMPTY →
  (TextChannel.edit name type position nsfw parent topic slowmode_delay
     default_auto_archive_duration reason self w).2
  = sent w (EditChannel (GuildChannel.id (TextChannel.base self))
              (TextChannel_body name type position nsfw parent topic slowmode_delay
                 default_auto_archive_duration) reason).
Proof.
  intros Htype Hd Hsome. rewrite TextChannel_edit_world.
  rewrite (proj2 (TextChannel_edit_json_Ok name type position nsfw parent topic
                    slowmode_delay default_auto_archive_duration _)
             (conj Htype (conj Hd eq_refl))).
  assert (dict_truthy (TextChannel_body name type position nsfw parent topic
                         slowmode_delay default_auto_archive_duration) = true) as ->;
    [|done].
  apply dict_truthy_size. unfold TextChannel_body. chain_size. unfold passed.
  destruct name, type, position, nsfw, parent, topic, slowmode_delay,
    default_auto_archive_duration; simpl; try lia; naive_solver.
Qed.

Lemma VoiceChannel_edit_sends name position bitrate parent rtc_region user_limit
    video_quality_mode reason (self : VoiceChannel.t) (w : World) :
  bitrate_accepted bitrate →
  name ≠ EMPTY ∨ position ≠ EMPTY ∨ bitrate ≠ EMPTY ∨ parent ≠ EMPTY ∨
  rtc_region ≠ EMPTY ∨ user_limit ≠ EMPTY ∨ video_quality_mode ≠ EMPTY →
  (VoiceChannel.edit name position bitrate parent rtc_region user_limit
     video_quality_mode reason self w).2
  = sent w (EditChannel (GuildChannel.id (VoiceChannel.base self))
              (VoiceChannel_body name position bitrate parent rtc_region user_limit
                 video_quality_mode) reason).
Proof.
  intros Hbitrate Hsome. rewrite VoiceChannel_edit_world.
  rewrite (proj2 (VoiceChannel_edit_json_Ok name position bitrate parent rtc_region
                    user_limit video_quality_mode _) (conj Hbitrate eq_refl)).
  assert (dict_truthy (VoiceChannel_body name position bitrate parent rtc_region
                         user_limit video_quality_mode) = true) as ->; [|done].
  apply dict_truthy_size. unfold VoiceChannel_body. chain_size. unfold passed.
  destruct name, position, bitrate, parent, rtc_region, user_limit, video_quality_mode;
    simpl; try lia; naive_solver.
Qed.

Lemma CategoryChannel_edit_sends name position reason (self : CategoryChannel.t)
    (w : World) :
  name ≠ EMPTY ∨ position ≠ EMPTY →
  (CategoryChannel.edit name position reason self w).2
  = sent w (EditChannel (GuildChannel.id self) (CategoryChannel_body name position) reason).
Proof.
  intros Hsome. rewrite CategoryChannel_edit_world.
  rewrite (proj2 (CategoryChannel_edit_json_Ok name position _) eq_refl).
  assert (dict_truthy (CategoryChannel_body name position) = true) as ->; [|done].
  apply dict_truthy_size. unfold CategoryChannel_body. chain_size. unfold passed.
  destruct name, position; simpl; try lia; naive_solver.
Qed.

Lemma GuildMember_edit_sends nickname roles mute deaf timeout_until reason
    (self : GuildMember.t) (w : World) :
  nickname ≠ EMPTY ∨ roles ≠ EMPTY ∨ mute ≠ EMPTY ∨ deaf ≠ EMPTY ∨
  timeout_until ≠ EMPTY →
  (GuildMember.edit nickname roles mute deaf timeout_until reason self w).2
  = sent w (EditGuildMember (Guild.id (guild w)) (User.id (GuildMember.user self))
              (GuildMember_body nickname roles mute deaf timeout_until) reason).
Proof.
  intros Hsome. rewrite GuildMember_edit_world.
  rewrite (proj2 (GuildMember_edit_json_Ok nickname roles mute deaf timeout_until _)
             eq_refl).
  assert (dict_truthy (GuildMember_body nickname roles mute deaf timeout_until) = true)
    as ->; [|done].
  apply dict_truthy_size. unfold GuildMember_body. chain_size. unfold passed.
  destruct nickname, roles, mute, deaf, timeout_until; simpl; try lia; naive_solver.
Qed.
End edit_sends.

(** C1.  An [edit] of a text channel, voice channel, category or member
    whose checks accept the arguments and to which at least one field is
    passed sends one body, with its request.  Whatever body an [edit]
    sends, it holds the key of a field exactly when the caller passed
    something other than [EMPTY] for that field, so it has as many keys as
    fields were passed (one key for one field); and an explicit [None] is
    stored as [null] for topic, nickname, parent, RTC region and timeout, as
    0 for slowmode delay and user limit, and as the empty list for roles. *)
Theorem edit_body_keys_iff_passed `{!RestServer, !Timestamps, !ChannelType} :
  (∀ name type position nsfw parent topic slowmode_delay default_auto_archive_duration
     reason (self : TextChannel.t) (w : World),
     let w' := (TextChannel.edit name type position nsfw parent topic slowmode_delay
                  default_auto_archive_duration reason self w).2 in
     (type_accepted type → duration_accepted default_auto_archive_duration →
      name ≠ EMPTY ∨ type ≠ EMPTY ∨ position ≠ EMPTY ∨ nsfw ≠ EMPTY ∨ parent ≠ EMPTY ∨
      topic ≠ EMPTY ∨ slowmode_delay ≠ EMPTY ∨ default_auto_archive_duration ≠ EMPTY →
      ∃ json : Json,
        outgoing w w' = [json] ∧
        w' = sent w (EditChannel (GuildChannel.id (TextChannel.base self)) json reason)) ∧
     (∀ json : Json, json ∈ outgoing w w' →
      (∀ k : string, k ∈ dom json ↔
         k = "name" ∧ name ≠ EMPTY ∨
         k = "type" ∧ type ≠ EMPTY ∨
         k = "position" ∧ position ≠ EMPTY ∨
         k = "nsfw" ∧ nsfw ≠ EMPTY ∨
         k = "topic" ∧ topic ≠ EMPTY ∨
         k = "rate_limit_per_user" ∧ slowmode_delay ≠ EMPTY ∨
         k = "default_auto_archive_duration" ∧ default_auto_archive_duration ≠ EMPTY ∨
         k = "parent_id" ∧ parent ≠ EMPTY) ∧
      size json = (passed name + passed type + passed position + passed nsfw +
                   passed topic + passed slowmode_delay +
                   passed default_auto_archive_duration + passed parent)%nat ∧
      (topic = PyNone → json !! "topic" = Some JNull) ∧
      (parent = PyNone → json !! "parent_id" = Some JNull) ∧
      (slowmode_delay = PyNone → json !! "rate_limit_per_user" = Some (JInt 0)))) ∧
  (∀ name position bitrate parent rtc_region user_limit video_quality_mode
     reason (self : VoiceChannel.t) (w : World),
     let w' := (VoiceChannel.edit name position bitrate parent rtc_region user_limit
                  video_quality_mode reason self w).2 in
     (bitrate_accepted bitrate →
      name ≠ EMPTY ∨ position ≠ EMPTY ∨ bitrate ≠ EMPTY ∨ parent ≠ EMPTY ∨
      rtc_region ≠ EMPTY ∨ user_limit ≠ EMPTY ∨ video_quality_mode ≠ EMPTY →
      ∃ json : Json,
        outgoing w w' = [json] ∧
        w' = sent w (EditChannel (GuildChannel.id (VoiceChannel.base self)) json reason)) ∧
     (∀ json : Json, json ∈ outgoing w w' →
      (∀ k : string, k ∈ dom json ↔
         k = "name" ∧ name ≠ EMPTY ∨
         k = "position" ∧ position ≠ EMPTY ∨
         k = "rtc_region" ∧ rtc_region ≠ EMPTY ∨
         k = "bitrate" ∧ bitrate ≠ EMPTY ∨
         k = "user_limit" ∧ user_limit ≠ EMPTY ∨
         k = "video_quality_mode" ∧ video_quality_mode ≠ EMPTY ∨
         k = "parent_id" ∧ parent ≠ EMPTY) ∧
      size json = (passed name + passed position + passed rtc_region + passed bitrate +
                   passed user_limit + passed video_quality_mode + passed parent)%nat ∧
      (rtc_region = PyNone → json !! "rtc_region" = Some JNull) ∧
      (parent = PyNone → json !! "parent_id" = Some JNull) ∧
      (user_limit = PyNone → json !! "user_limit" = Some (JInt 0)))) ∧
  (∀ name position reason (self : CategoryChannel.t) (w : World),
     let w' := (CategoryChannel.edit name position reason self w).2 in
     (name ≠ EMPTY ∨ position ≠ EMPTY →
      ∃ json : Json,
        outgoing w w' = [json] ∧
        w' = sent w (EditChannel (GuildChannel.id self) json reason)) ∧
     (∀ json : Json, json ∈ outgoing w w' →
      (∀ k : string, k ∈ dom json ↔
         k = "name" ∧ name ≠ EMPTY ∨ k = "position" ∧ position ≠ EMPTY) ∧
      size json = (passed name + passed position)%nat)) ∧
  (∀ nickname roles mute deaf timeout_until reason (self : GuildMember.t) (w : World),
     let w' := (GuildMember.edit nickname roles mute deaf timeout_until
                  reason self w).2 in
     (nickname ≠ EMPTY ∨ roles ≠ EMPTY ∨ mute ≠ EMPTY ∨ deaf ≠ EMPTY ∨
      timeout_until ≠ EMPTY →
      ∃ json : Json,
        outgoing w w' = [json] ∧
        w' = sent w (EditGuildMember (Guild.id (guild w))
                       (User.id (GuildMember.user self)) json reason)) ∧
     (∀ json : Json, json ∈ outgoing w w' →
      (∀ k : string, k ∈ dom json ↔
         k = "nick" ∧ nickname ≠ EMPTY ∨
         k = "roles" ∧ roles ≠ EMPTY ∨
         k = "mute" ∧ mute ≠ EMPTY ∨
         k = "deaf" ∧ deaf ≠ EMPTY ∨
         k = "communication_disabled_until" ∧ timeout_until ≠ EMPTY) ∧
      size json = (passed nickname + passed roles + passed mute + passed deaf +
                   passed timeout_until)%nat ∧
      (nickname = PyNone → json !! "nick" = Some JNull) ∧
      (timeout_until = PyNone → json !! "communication_disabled_until" = Some JNull) ∧
      (roles = PyNone → json !! "roles" = Some (JList [])))).
Proof.
  split; [|split; [|split]].
  - intros. subst w'. split.
    { intros Htype Hd Hsome. eexists. split; [|by apply TextChannel_edit_sends].
      rewrite TextChannel_edit_sends by done. by rewrite outgoing_sent. }
    intros json Hin. apply TextChannel_outgoing in Hin.
    apply TextChannel_edit_json_Ok in Hin as (_ & _ & ->). unfold TextChannel_body.
    split; [|split; [|split; [|split]]].
    + intros k. chain_dom. tauto.
    + chain_size. unfold passed. lia.
    + intros ->. chain_lookup. by rewrite lookup_put_val_eq.
    + intros ->. by rewrite lookup_put_val_eq.
    + intros ->. chain_lookup. by rewrite lookup_put_val_eq.
  - intros. subst w'. split.
    { intros Hbitrate Hsome. eexists. split; [|by apply VoiceChannel_edit_sends].
      rewrite VoiceChannel_edit_sends by done. by rewrite outgoing_sent. }
    intros json Hin. apply VoiceChannel_outgoing in Hin.
    apply VoiceChannel_edit_json_Ok in Hin as (_ & ->). unfold VoiceChannel_body.
    split; [|split; [|split; [|split]]].
    + intros k. chain_dom. tauto.
    + chain_size. unfold passed. lia.
    + intros ->. chain_lookup. by rewrite lookup_put_val_eq.
    + intros ->. by rewrite lookup_put_val_eq.
    + intros ->. chain_lookup. by rewrite lookup_put_val_eq.
  - intros. subst w'. split.
    { intros Hsome. eexists. split; [|by apply CategoryChannel_edit_sends].
      rewrite CategoryChannel_edit_sends by done. by rewrite outgoing_sent. }
    intros json Hin. apply CategoryChannel_outgoing in Hin.
    apply CategoryChannel_edit_json_Ok in Hin as ->. unfold CategoryChannel_body.
    split.
    + intros k. chain_dom. tauto.
    + chain_size. unfold passed. lia.
  - intros. subst w'. split.
    { intros Hsome. eexists. split; [|by apply GuildMember_edit_sends].
      rewrite GuildMember_edit_sends by done. by rewrite outgoing_sent. }
    intros json Hin. apply GuildMember_outgoing in Hin.
    apply GuildMember_edit_json_Ok in Hin as ->. unfold GuildMember_body.
    split; [|split; [|split; [|split]]].
    + intros k. chain_dom. tauto.
    + chain_size. unfold passed. lia.
    + intros ->. chain_lookup. by rewrite lookup_put_val_eq.
    + intros ->. by rewrite lookup_put_val_eq.
    + intros ->. chain_lookup. by rewrite lookup_put_val_eq.
Qed.

(** ** Local validation *)

Lemma TextChannel_edit_json_Raise `{!ChannelType} name type position nsfw parent topic
    slowmode_delay default_auto_archive_duration e :
  TextChannel.edit_json name type position nsfw parent topic slowmode_delay
    default_auto_archive_duration = Raise e →
  ∃ msg, e = ValueError msg.
Proof.
  unfold TextChannel.edit_json.
  destruct (is_not_EMPTY type); [destruct (py_in type [NEWS; TEXT])|]; simpl;
    (destruct (is_not_EMPTY default_auto_archive_duration);
      [destruct (py_in default_auto_archive_duration [60; 1440; 4320; 10080])|]; simpl);
    intros Heq; simplify_eq; eauto.
Qed.

Lemma VoiceChannel_edit_json_Val_Raise name position b parent rtc_region user_limit
    video_quality_mode e :
  VoiceChannel.edit_json name position (Val b) parent rtc_region user_limit
    video_quality_mode = Raise e →
  ∃ msg, e = ValueError msg.
Proof.
  unfold VoiceChannel.edit_json.
  destruct ((b <? 8000) || (b >? 128000)); simpl; intros Heq; simplify_eq; eauto.
Qed.

Lemma put_val_true_truthy key v (json : Json) :
  dict_truthy (put_val true key v json) = true.
Proof.
  apply dict_truthy_size. unfold put_val. intros Hsize.
  apply map_size_empty_iff in Hsize. by apply insert_non_empty in Hsize.
Qed.

Lemma put_val_truthy b key v (json : Json) :
  dict_truthy json = true → dict_truthy (put_val b key v json) = true.
Proof.
  destruct b; [intros _; apply put_val_true_truthy|done].
Qed.

(** A chain of stores is a non-empty [dict] once one store is unconditional. *)
Ltac chain_truthy :=
  repeat first [apply put_val_true_truthy | apply put_val_truthy].

(** C3.  [VoiceChannel.edit] with an explicit bitrate raises [ValueError]
    with no request sent and the channel untouched when the bitrate is
    below 8000 or above 128000, and sends its request, bitrate included,
    when the bitrate is within the two bounds. *)
Theorem voice_edit_bitrate_range `{!RestServer} :
  ∀ name position parent rtc_region user_limit video_quality_mode reason
    (self : VoiceChannel.t) (w : World) (b : Z),
    let run := VoiceChannel.edit name position (Val b) parent rtc_region user_limit
                 video_quality_mode reason self w in
    (b < 8000 ∨ 128000 < b → ∃ msg, run = (Raise (ValueError msg), self, w)) ∧
    (8000 ≤ b ≤ 128000 →
       ∃ json, json !! "bitrate" = Some (JInt b) ∧
         run.2 = sent w (EditChannel (GuildChannel.id (VoiceChannel.base self)) json reason)).
Proof.
  intros. subst run. rewrite VoiceChannel_edit_run. split.
  - intros Hout.
    destruct (VoiceChannel.edit_json _ _ _ _ _ _ _) as [json|e] eqn:Hjson.
    + apply VoiceChannel_edit_json_Ok in Hjson as [[?|(b' & ? & ?)] _]; simplify_eq. lia.
    + apply VoiceChannel_edit_json_Val_Raise in Hjson as [msg ->]. eauto.
  - intros Hin.
    assert (bitrate_accepted (Val b)) as Hok by (right; eauto).
    pose proof (proj2 (VoiceChannel_edit_json_Ok name position (Val b) parent rtc_region
                         user_limit video_quality_mode _) (conj Hok eq_refl)) as ->.
    exists (VoiceChannel_body name position (Val b) parent rtc_region user_limit
              video_quality_mode).
    split.
    + unfold VoiceChannel_body. chain_lookup. simpl. apply lookup_put_val_eq.
    + assert (dict_truthy (VoiceChannel_body name position (Val b) parent rtc_region
                             user_limit video_quality_mode) = true) as ->
        by (unfold VoiceChannel_body; chain_truthy).
      simpl. by destruct (edit_channel_reply _) as [[data|]|e].
Qed.

(** C4.  [TextChannel.edit] raises [ValueError], with no request sent and
    the channel untouched, when an explicit type is neither [TEXT] nor
    [NEWS] or when an explicit default auto archive duration is none of 60,
    1440, 4320 and 10080; an explicit [None] slowmode delay is no error: the
    request leaves with 0 stored for it. *)
Theorem text_edit_validation `{!RestServer, !Timestamps, !ChannelType} :
  ∀ name type position nsfw parent topic slowmode_delay default_auto_archive_duration
    reason (self : TextChannel.t) (w : World),
    let run := TextChannel.edit name type position nsfw parent topic slowmode_delay
                 default_auto_archive_duration reason self w in
    (type ≠ EMPTY → type ≠ Val TEXT → type ≠ Val NEWS →
       ∃ msg, run = (Raise (ValueError msg), self, w)) ∧
    (default_auto_archive_duration ≠ EMPTY →
     (∀ d, d ∈ [60; 1440; 4320; 10080] → default_auto_archive_duration ≠ Val d) →
       ∃ msg, run = (Raise (ValueError msg), self, w)) ∧
    (slowmode_delay = PyNone →
     type_accepted type → duration_accepted default_auto_archive_duration →
       ∃ json, json !! "rate_limit_per_user" = Some (JInt 0) ∧
         run.2 = sent w (EditChannel (GuildChannel.id (TextChannel.base self)) json reason)).
Proof.
  intros. subst run. rewrite TextChannel_edit_run.
  split; [|split].
  - intros Hne Htext Hnews.
    destruct (TextChannel.edit_json _ _ _ _ _ _ _ _) as [json|e] eqn:Hjson.
    + apply TextChannel_edit_json_Ok in Hjson as ([?|[?|?]] & _ & _); done.
    + apply TextChannel_edit_json_Raise in Hjson as [msg ->]. eauto.
  - intros Hne Hnone.
    destruct (TextChannel.edit_json _ _ _ _ _ _ _ _) as [json|e] eqn:Hjson.
    + apply TextChannel_edit_json_Ok in Hjson as (_ & Hd & _).
      destruct Hd as [?|[?|[?|[?|?]]]]; [done|exfalso; eapply Hnone; [|done]; set_solver..].
    + apply TextChannel_edit_json_Raise in Hjson as [msg ->]. eauto.
  - intros -> Htype Hd.
    pose proof (proj2 (TextChannel_edit_json_Ok name type position nsfw parent topic PyNone
                         default_auto_archive_duration _)
                  (conj Htype (conj Hd eq_refl))) as ->.
    exists (TextChannel_body name type position nsfw parent topic PyNone
              default_auto_archive_duration).
    split.
    + unfold TextChannel_body. chain_lookup. simpl. apply lookup_put_val_eq.
    + assert (dict_truthy (TextChannel_body name type position nsfw parent topic PyNone
                             default_auto_archive_duration) = true) as ->
        by (unfold TextChannel_body; chain_truthy).
      simpl. by destruct (edit_channel_reply _) as [[data|]|e].
Qed.

(** ** Timeouts *)

(** C5.  [is_timed_out] compares the naive [datetime.now()] with
    [timeout_until].  For a timeout that is timezone-aware, in the past or
    in the future alike, that comparison raises [TypeError]: the method
    answers neither [True] nor [False]. *)
Theorem is_timed_out_raises_on_aware_timeout :
  ∀ (self : GuildMember.t) (w : World) (utc utcoffset : Z),
    GuildMember.timeout_until self = Some (aware utc utcoffset) →
    GuildMember.is_timed_out self w = (Raise TypeError, self, w).
Proof.
  intros self w utc utcoffset Haware.
  unfold GuildMember.is_timed_out, bind, get_self, get_world. by rewrite Haware.
Qed.

(** ** The channel class factory *)

(** C8.  With the five channel type codes distinct integers that the
    interpreter keeps as single objects, [_channel_factory] maps [TEXT] to
    [TextChannel], [NEWS] to [NewsChannel], [CATEGORY] to [CategoryChannel],
    [VOICE] to [VoiceChannel], [STAGE] to [StageChannel], and every other
    code to the base [GuildChannel]; it is a function, so it has a value on
    every code and raises on none. *)
Theorem channel_factory_mapping `{!ChannelType, !IntIdentity} :
  (∀ a b : Z, py_is a b = true → a = b) →
  (∀ a : Z, small_int a → py_is a a = true) →
  Forall small_int [TEXT; NEWS; CATEGORY; VOICE; STAGE] →
  NoDup [TEXT; NEWS; CATEGORY; VOICE; STAGE] →
  _channel_factory TEXT = cls_TextChannel ∧
  _channel_factory NEWS = cls_NewsChannel ∧
  _channel_factory CATEGORY = cls_CategoryChannel ∧
  _channel_factory VOICE = cls_VoiceChannel ∧
  _channel_factory STAGE = cls_StageChannel ∧
  (∀ type : Z, type ∉ [TEXT; NEWS; CATEGORY; VOICE; STAGE] →
     _channel_factory type = cls_GuildChannel).
Proof.
  intros Hsound Hsmall Hcodes Hdistinct.
  assert (∀ a b, a ≠ b → py_is a b = false) as Hne.
  { intros a b Hab. destruct (py_is a b) eqn:Hid; [|done]. by apply Hsound in Hid. }
  rewrite !Forall_cons in Hcodes.
  destruct Hcodes as (Htext & Hnews & Hcat & Hvoice & Hstage & _).
  rewrite !NoDup_cons in Hdistinct.
  destruct Hdistinct as (H1 & H2 & H3 & H4 & _).
  unfold _channel_factory.
  repeat split.
  - by rewrite Hsmall.
  - rewrite (Hne NEWS TEXT) by set_solver. by rewrite Hsmall.
  - rewrite (Hne CATEGORY TEXT), (Hne CATEGORY NEWS) by set_solver. by rewrite Hsmall.
  - rewrite (Hne VOICE TEXT), (Hne VOICE NEWS), (Hne VOICE CATEGORY) by set_solver.
    by rewrite Hsmall.
  - rewrite (Hne STAGE TEXT), (Hne STAGE NEWS), (Hne STAGE CATEGORY), (Hne STAGE VOICE)
      by set_solver.
    by rewrite Hsmall.
  - intros type Hother.
    by rewrite (Hne type TEXT), (Hne type NEWS), (Hne type CATEGORY), (Hne type VOICE),
      (Hne type STAGE) by set_solver.
Qed.

(** ** Unresolved roles *)

(** C10.  When the role cache has no role for an id of the payload, the
    hydrated member still has an entry for it: [roles] holds [None] and
    [role_ids] holds the id, both at the index of the payload. *)
Theorem unresolved_role_kept_as_None `{!Timestamps} :
  ∀ (g : Guild.t) (data : MemberData.t) (i : nat) (role_id : Z),
    default [] (MemberData.roles data) !! i = Some role_id →
    Guild.get_role g role_id = None →
    GuildMember.roles (GuildMember._update_with_data g data) !! i = Some None ∧
    GuildMember.role_ids (GuildMember._update_with_data g data) !! i = Some role_id.
Proof.
  intros g data i role_id Hi Hmiss. simpl. split; [|done].
  rewrite resolve_roles_map, list_lookup_fmap, Hi. simpl. by rewrite Hmiss.
Qed.

(** ** Adding roles one by one *)

Section add_roles_loop.
Context `{!RestServer}.
Variables (self : GuildMember.t) (guild_id user_id : Z) (reason : option string).

Local Abbreviation existing_roles := (GuildMember.role_ids self).
Local Abbreviation loop :=
  (GuildMember.add_roles_loop existing_roles guild_id user_id true reason).
Local Abbreviation calls := (add_role_calls guild_id user_id reason).

Lemma sent_all_nil (w : World) : sent_all w [] = w.
Proof. destruct w. unfold sent_all; simpl. by rewrite app_nil_r. Qed.

Lemma sent_all_cons (w : World) rq rqs : sent_all (sent w rq) rqs = sent_all w (rq :: rqs).
Proof. unfold sent_all, sent; simpl. by rewrite <- app_assoc. Qed.

Lemma roles_to_add_cons role roles :
  roles_to_add self (role :: roles) =
  if bool_decide (Role.id role ∈ existing_roles) then roles_to_add self roles
  else role :: roles_to_add self roles.
Proof.
  unfold roles_to_add. rewrite filter_cons.
  destruct (decide (Role.id role ∉ GuildMember.role_ids self)) as [Hnot|Hin].
  - by rewrite bool_decide_eq_false_2.
  - rewrite bool_decide_eq_true_2; [done|]. by apply dec_stable.
Qed.

(** Every add call is answered: the loop sends them all and returns the
    roles it sent a call for. *)
Lemma add_roles_loop_all_answered (roles : list Role.t) (ret : list (option Role.t))
    (w : World) :
  (∀ n : nat, (n < length (calls (roles_to_add self roles)))%nat →
     add_guild_member_role_reply
       (requests w ++ take (S n) (calls (roles_to_add self roles))) = Ok tt) →
  loop roles ret self w =
  (Ok (ret ++ (Some <$> roles_to_add self roles)), self,
   sent_all w (calls (roles_to_add self roles))).
Proof.
  revert ret w. induction roles as [|role roles IH]; intros ret w Hreply.
  - simpl. unfold pure. by rewrite app_nil_r, sent_all_nil.
  - simpl. rewrite roles_to_add_cons in *.
    rewrite andb_true_r.
    destruct (bool_decide (Role.id role ∈ existing_roles)); [by apply IH|].
    unfold bind at 1, Rest.add_guild_member_role, send.
    pose proof (Hreply 0%nat) as H0; simpl in H0. rewrite take_0 in H0. rewrite H0 by lia.
    fold (sent w (AddGuildMemberRole guild_id user_id (Role.id role) reason)).
    rewrite IH.
    + rewrite sent_all_cons. simpl. by rewrite <- app_assoc.
    + intros n Hn. simpl. rewrite <- app_assoc. simpl.
      apply (Hreply (S n)). simpl. lia.
Qed.

(** The call number [n] is the first one refused: the loop stops there,
    with the refusal raised and no later call sent. *)
Lemma add_roles_loop_refused (roles : list Role.t) (ret : list (option Role.t))
    (w : World) (n : nat) (e : exn) :
  (n < length (calls (roles_to_add self roles)))%nat →
  (∀ m : nat, (m < n)%nat →
     add_guild_member_role_reply
       (requests w ++ take (S m) (calls (roles_to_add self roles))) = Ok tt) →
  add_guild_member_role_reply
    (requests w ++ take (S n) (calls (roles_to_add self roles))) = Raise e →
  loop roles ret self w =
  (Raise e, self, sent_all w (take (S n) (calls (roles_to_add self roles)))).
Proof.
  revert ret w n. induction roles as [|role roles IH]; intros ret w n Hn Hbefore Hrefused.
  - simpl in Hn. lia.
  - simpl. rewrite roles_to_add_cons in *.
    rewrite andb_true_r.
    destruct (bool_decide (Role.id role ∈ existing_roles)); [by apply IH|].
    unfold bind at 1, Rest.add_guild_member_role, send.
    destruct n as [|n].
    + simpl in Hrefused. rewrite take_0 in Hrefused. simpl. rewrite take_0.
      by rewrite Hrefused.
    + pose proof (Hbefore 0%nat) as H0; simpl in H0. rewrite take_0 in H0.
      rewrite H0 by lia.
      fold (sent w (AddGuildMemberRole guild_id user_id (Role.id role) reason)).
      rewrite (IH _ _ n).
      * by rewrite sent_all_cons.
      * simpl in Hn. lia.
      * intros m Hm. simpl. rewrite <- app_assoc. simpl.
        apply (Hbefore (S m)). lia.
      * simpl. rewrite <- app_assoc. simpl. apply Hrefused.
Qed.

(** The loop leaves the member as it found it, whatever the server does. *)
Lemma add_roles_loop_self ignore_extra (roles : list Role.t) (ret : list (option Role.t))
    (this : GuildMember.t) (w : World) :
  (GuildMember.add_roles_loop existing_roles guild_id user_id ignore_extra reason
     roles ret this w).1.2 = this.
Proof.
  revert ret w. induction roles as [|role roles IH]; intros ret w; [done|].
  simpl. destruct (_ && _); [apply IH|].
  unfold bind at 1, Rest.add_guild_member_role, send.
  destruct (add_guild_member_role_reply _); [apply IH|done].
Qed.
End add_roles_loop.

(** C6.  [add_roles] without [overwrite] and with [ignore_extra] sends one
    add-role request for each given role whose id is not among the member's
    [role_ids], in the order the roles were given, and none for the others;
    when every request is answered it returns the roles it sent a request
    for, and the member is left as it was.  When a request is refused, the
    refusal is raised and no later request is sent. *)
Theorem add_roles_one_call_per_new_role `{!RestServer, !Timestamps} :
  ∀ (roles : list Role.t) (reason : option string) (self : GuildMember.t) (w : World),
    let added := filter (λ role, Role.id role ∉ GuildMember.role_ids self) roles in
    let calls :=
      map (λ role, AddGuildMemberRole (Guild.id (guild w))
                     (User.id (GuildMember.user self)) (Role.id role) reason) added in
    ((∀ n : nat, (n < length calls)%nat →
        add_guild_member_role_reply (requests w ++ take (S n) calls) = Ok tt) →
     GuildMember.add_roles roles false true reason self w
     = (Ok (Some <$> added), self, mkWorld (guild w) (requests w ++ calls) (now w))) ∧
    (∀ (n : nat) (e : exn), (n < length calls)%nat →
       (∀ m : nat, (m < n)%nat →
          add_guild_member_role_reply (requests w ++ take (S m) calls) = Ok tt) →
       add_guild_member_role_reply (requests w ++ take (S n) calls) = Raise e →
       GuildMember.add_roles roles false true reason self w
       = (Raise e, self, mkWorld (guild w) (requests w ++ take (S n) calls) (now w))).
Proof.
  intros roles reason self w added calls.
  unfold GuildMember.add_roles. rewrite andb_false_r.
  unfold bind, get_self, get_world; simpl.
  split.
  - intros Hreply.
    by rewrite (add_roles_loop_all_answered self _ _ reason roles [] w Hreply).
  - intros n e Hn Hbefore Hrefused.
    by rewrite (add_roles_loop_refused self _ _ reason roles [] w n e Hn Hbefore Hrefused).
Qed.

(** ** Removing every role *)

Lemma GuildMember_edit_json_no_roles `{!Timestamps} :
  GuildMember.edit_json EMPTY (Val []) EMPTY EMPTY EMPTY = Ok {["roles" := JList []]}.
Proof.
  apply GuildMember_edit_json_Ok. unfold GuildMember_body, put_val; simpl.
  by rewrite insert_empty.
Qed.

Lemma dict_truthy_singleton key v : dict_truthy ({[key := v]} : Json) = true.
Proof. apply dict_truthy_size. by rewrite map_size_singleton. Qed.

(** C7.  [remove_roles] called with no role does what the specification
    says of it, and is [edit(roles=[])] followed by reading the member's
    [roles]: one bulk edit request with an empty role-id list, the member
    re-hydrated from the response, the re-hydrated role list returned. *)
Theorem remove_roles_none_is_bulk_edit `{!RestServer, !Timestamps} :
  ∀ (ignore_extra : bool) (reason : option string) (self : GuildMember.t) (w : World),
    GuildMember.remove_roles [] ignore_extra reason self w
    = clear_roles_in_bulk reason self w ∧
    GuildMember.remove_roles [] ignore_extra reason self w
    = match GuildMember.edit EMPTY (Val []) EMPTY EMPTY EMPTY reason self w with
      | (Ok _, self', w') => (Ok (GuildMember.roles self'), self', w')
      | (Raise e, self', w') => (Raise e, self', w')
      end.
Proof.
  intros. unfold GuildMember.remove_roles; simpl.
  split; unfold bind at 1;
    [|destruct (GuildMember.edit _ _ _ _ _ _ _ _) as [[[[]|e] self'] w']; reflexivity].
  rewrite GuildMember_edit_run, GuildMember_edit_json_no_roles, dict_truthy_singleton.
  unfold clear_roles_in_bulk. simpl.
  by destruct (edit_guild_member_reply _) as [data|e].
Qed.

(** ** The two role lists of a member *)

Section role_lists.
Context `{!RestServer, !Timestamps}.

Lemma remove_roles_loop_self existing_roles guild_id user_id ignore_extra reason
    (roles : list Role.t) (ret : list (option Role.t)) (self : GuildMember.t) (w : World) :
  (GuildMember.remove_roles_loop existing_roles guild_id user_id ignore_extra reason
     roles ret self w).1.2 = self.
Proof.
  revert ret w. induction roles as [|role roles IH]; intros ret w; [done|].
  simpl. destruct (_ && _); [apply IH|].
  unfold bind at 1, Rest.remove_guild_member_role, send.
  destruct (remove_guild_member_role_reply _); [apply IH|done].
Qed.

Lemma edit_left_or_rehydrated nickname roles mute deaf timeout_until reason :
  left_or_rehydrated (GuildMember.edit nickname roles mute deaf timeout_until reason).
Proof.
  intros self w. rewrite GuildMember_edit_run.
  destruct (GuildMember.edit_json _ _ _ _ _) as [json|e]; [|by left].
  destruct (dict_truthy json); [|by left]. simpl.
  destruct (edit_guild_member_reply _) as [data|e]; [|by left].
  right. apply hydrated_roles_resolved.
Qed.

Lemma bulk_then_roles_left_or_rehydrated (m : M GuildMember.t unit) :
  left_or_rehydrated m →
  left_or_rehydrated (m ;; let* self := get_self in pure (GuildMember.roles self)).
Proof.
  intros Hm self w. specialize (Hm self w). unfold bind.
  destruct (m self w) as [[[[]|e] self'] w']; exact Hm.
Qed.

Lemma add_roles_left_or_rehydrated roles overwrite ignore_extra reason :
  left_or_rehydrated (GuildMember.add_roles roles overwrite ignore_extra reason).
Proof.
  unfold GuildMember.add_roles.
  destruct (tuple_truthy roles && overwrite).
  - apply bulk_then_roles_left_or_rehydrated, edit_left_or_rehydrated.
  - intros self w. left. unfold bind, get_self, get_world; simpl.
    apply add_roles_loop_self.
Qed.

Lemma remove_roles_left_or_rehydrated roles ignore_extra reason :
  left_or_rehydrated (GuildMember.remove_roles roles ignore_extra reason).
Proof.
  unfold GuildMember.remove_roles.
  destruct (negb (tuple_truthy roles)).
  - apply bulk_then_roles_left_or_rehydrated, edit_left_or_rehydrated.
  - intros self w. left. unfold bind, get_self, get_world; simpl.
    apply remove_roles_loop_self.
Qed.

Lemma kick_left_or_rehydrated reason : left_or_rehydrated (GuildMember.kick reason).
Proof. intros self w. by left. Qed.

Lemma is_timed_out_left_or_rehydrated : left_or_rehydrated GuildMember.is_timed_out.
Proof.
  intros self w. left. unfold GuildMember.is_timed_out, bind, get_self, get_world, lift.
  by destruct (GuildMember.timeout_until self).
Qed.

Lemma left_or_rehydrated_in_step {A} (m : M GuildMember.t A) self w :
  left_or_rehydrated m → roles_in_step self → roles_in_step (m self w).1.2.
Proof.
  intros Hm Hself. destruct (Hm self w) as [->|Hre]; [done|]. by exists (guild w).
Qed.
End role_lists.

(** C9.  A member hydrated from a payload, at construction or later, has
    [roles] and [role_ids] of the same length with [roles[i]] the lookup of
    [role_ids[i]] in the role cache of that time; each method leaves the
    member as it was or re-hydrates it (as [edit] does), so the two lists
    stay in step through every method. *)
Theorem member_role_lists_stay_in_step `{!RestServer, !Timestamps} :
  (∀ (g : Guild.t) (data : MemberData.t),
     let self := GuildMember._update_with_data g data in
     length (GuildMember.roles self) = length (GuildMember.role_ids self) ∧
     ∀ (i : nat) (role_id : Z),
       GuildMember.role_ids self !! i = Some role_id →
       GuildMember.roles self !! i = Some (Guild.get_role g role_id)) ∧
  (∀ (g : Guild.t) (data : MemberData.t),
     roles_resolved_against g (GuildMember.__init__ data g)) ∧
  (∀ (self : GuildMember.t) (w : World),
     roles_in_step self →
     (∀ nickname roles mute deaf timeout_until reason,
        let self' := (GuildMember.edit nickname roles mute deaf timeout_until reason
                        self w).1.2 in
        roles_in_step self' ∧ (self' = self ∨ roles_resolved_against (guild w) self')) ∧
     (∀ roles overwrite ignore_extra reason,
        roles_in_step (GuildMember.add_roles roles overwrite ignore_extra reason
                         self w).1.2) ∧
     (∀ roles ignore_extra reason,
        roles_in_step (GuildMember.remove_roles roles ignore_extra reason self w).1.2) ∧
     (∀ reason, roles_in_step (GuildMember.kick reason self w).1.2) ∧
     roles_in_step (GuildMember.is_timed_out self w).1.2).
Proof.
  split; [|split].
  - intros g data. apply hydrated_roles_resolved.
  - intros g data. apply hydrated_roles_resolved.
  - intros self w Hself. split; [|split; [|split; [|split]]].
    + intros. subst self'. split.
      * by apply left_or_rehydrated_in_step; [apply edit_left_or_rehydrated|].
      * apply edit_left_or_rehydrated.
    + intros. by apply left_or_rehydrated_in_step; [apply add_roles_left_or_rehydrated|].
    + intros. by apply left_or_rehydrated_in_step; [apply remove_roles_left_or_rehydrated|].
    + intros. by apply left_or_rehydrated_in_step; [apply kick_left_or_rehydrated|].
    + by apply left_or_rehydrated_in_step; [apply is_timed_out_left_or_rehydrated|].
Qed.

(** ** The theorems on the sample deployment *)

Lemma edit_body_keys_iff_passed_witness :
  (∃ json : Json,
     outgoing Sample.world
       (@TextChannel.edit Sample.server Sample.timestamps Sample.channel_types
          EMPTY EMPTY EMPTY EMPTY EMPTY PyNone EMPTY EMPTY None
          Sample.text_channel Sample.world).2 = [json] ∧
     size json = 1%nat ∧ json !! "topic" = Some JNull) ∧
  (∃ json : Json,
     outgoing Sample.world
       (@GuildMember.edit Sample.server Sample.timestamps
          EMPTY PyNone EMPTY EMPTY EMPTY None Sample.member Sample.world).2 = [json] ∧
     size json = 1%nat ∧ json !! "roles" = Some (JList [])).
Proof.
  pose proof (@edit_body_keys_iff_passed Sample.server Sample.timestamps
                Sample.channel_types) as (Htext & _ & _ & Hmember).
  split.
  - destruct (Htext EMPTY EMPTY EMPTY EMPTY EMPTY PyNone EMPTY EMPTY None
                Sample.text_channel Sample.world) as [Hsends Hbody].
    destruct Hsends as (json & Hout & _).
    + left. reflexivity.
    + left. reflexivity.
    + do 5 right. left. discriminate.
    + exists json. split; [exact Hout|].
      destruct (Hbody json) as (_ & Hsize & Htopic & _).
      * rewrite Hout. apply list_elem_of_here.
      * split; [exact Hsize|exact (Htopic eq_refl)].
  - destruct (Hmember EMPTY PyNone EMPTY EMPTY EMPTY None Sample.member Sample.world)
      as [Hsends Hbody].
    destruct Hsends as (json & Hout & _).
    + right. left. discriminate.
    + exists json. split; [exact Hout|].
      destruct (Hbody json) as (_ & Hsize & _ & _ & Hroles).
      * rewrite Hout. apply list_elem_of_here.
      * split; [exact Hsize|exact (Hroles eq_refl)].
Defined.

Lemma voice_edit_bitrate_range_witness :
  let edit b :=
    @VoiceChannel.edit Sample.server EMPTY EMPTY (Val b) EMPTY EMPTY EMPTY EMPTY None
      Sample.voice_channel Sample.world in
  (∃ msg, edit 7999 = (Raise (ValueError msg), Sample.voice_channel, Sample.world)) ∧
  (∃ msg, edit 128001 = (Raise (ValueError msg), Sample.voice_channel, Sample.world)) ∧
  (∃ json, json !! "bitrate" = Some (JInt 8000) ∧
     (edit 8000).2 = sent Sample.world (EditChannel 22 json None)) ∧
  (∃ json, json !! "bitrate" = Some (JInt 128000) ∧
     (edit 128000).2 = sent Sample.world (EditChannel 22 json None)).
Proof.
  intros edit.
  pose proof (λ b, @voice_edit_bitrate_range Sample.server EMPTY EMPTY EMPTY EMPTY EMPTY
                     EMPTY None Sample.voice_channel Sample.world b) as Hrange.
  split; [|split; [|split]].
  - apply (proj1 (Hrange 7999)). lia.
  - apply (proj1 (Hrange 128001)). lia.
  - apply (proj2 (Hrange 8000)). lia.
  - apply (proj2 (Hrange 128000)). lia.
Defined.

Lemma text_edit_validation_witness :
  let edit type slowmode_delay duration :=
    @TextChannel.edit Sample.server Sample.timestamps Sample.channel_types
      EMPTY type EMPTY EMPTY EMPTY EMPTY slowmode_delay duration None
      Sample.text_channel Sample.world in
  (∃ msg, edit (Val 2) EMPTY EMPTY
          = (Raise (ValueError msg), Sample.text_channel, Sample.world)) ∧
  (∃ msg, edit EMPTY EMPTY (Val 120)
          = (Raise (ValueError msg), Sample.text_channel, Sample.world)) ∧
  (∃ json, json !! "rate_limit_per_user" = Some (JInt 0) ∧
     (edit EMPTY PyNone (Val 1440)).2 = sent Sample.world (EditChannel 21 json None)).
Proof.
  intros edit.
  pose proof (λ type slowmode_delay duration,
                @text_edit_validation Sample.server Sample.timestamps Sample.channel_types
                  EMPTY type EMPTY EMPTY EMPTY EMPTY slowmode_delay duration None
                  Sample.text_channel Sample.world) as Hvalid.
  split; [|split].
  - apply (proj1 (Hvalid (Val 2) EMPTY EMPTY)); simpl; congruence.
  - apply (proj1 (proj2 (Hvalid EMPTY EMPTY (Val 120)))); [congruence|].
    intros d Hd Heq. injection Heq as <-.
    repeat (apply elem_of_cons in Hd as [Hd|Hd]; [lia|]).
    by apply elem_of_nil in Hd.
  - apply (proj2 (proj2 (Hvalid EMPTY PyNone (Val 1440)))).
    + reflexivity.
    + by left.
    + right. right. by left.
Defined.

Lemma is_timed_out_raises_on_aware_timeout_witness :
  let self := @GuildMember._update_with_data Sample.timestamps Sample.the_guild
                Sample.timed_out_data in
  GuildMember.timeout_until self = Some (aware 25 0) ∧
  GuildMember.is_timed_out self (at_time Sample.world 0)
  = (Raise TypeError, self, at_time Sample.world 0).
Proof.
  intros self. split; [reflexivity|].
  apply (is_timed_out_raises_on_aware_timeout self (at_time Sample.world 0) 25 0).
  reflexivity.
Defined.

Lemma add_roles_one_call_per_new_role_witness :
  @GuildMember.add_roles Sample.server Sample.timestamps
    [Sample.moderator; Sample.helper] false true None Sample.member Sample.world
  = (Ok [Some Sample.helper], Sample.member,
     mkWorld Sample.the_guild [AddGuildMemberRole 1 7 12 None] 1000) ∧
  @GuildMember.add_roles Sample.strict_server Sample.timestamps
    [Sample.moderator; Sample.helper] false true None Sample.member Sample.world
  = (Raise HTTPForbidden, Sample.member,
     mkWorld Sample.the_guild [AddGuildMemberRole 1 7 12 None] 1000).
Proof.
  split.
  - apply (proj1 (@add_roles_one_call_per_new_role Sample.server Sample.timestamps
                    [Sample.moderator; Sample.helper] None Sample.member Sample.world)).
    intros n Hn. reflexivity.
  - apply (proj2 (@add_roles_one_call_per_new_role Sample.strict_server Sample.timestamps
                    [Sample.moderator; Sample.helper] None Sample.member Sample.world)
             0%nat HTTPForbidden).
    + simpl. lia.
    + intros m Hm. lia.
    + reflexivity.
Defined.

Lemma channel_factory_mapping_witness :
  @_channel_factory Sample.channel_types Sample.identity 0 = cls_TextChannel ∧
  @_channel_factory Sample.channel_types Sample.identity 5 = cls_NewsChannel ∧
  @_channel_factory Sample.channel_types Sample.identity 4 = cls_CategoryChannel ∧
  @_channel_factory Sample.channel_types Sample.identity 2 = cls_VoiceChannel ∧
  @_channel_factory Sample.channel_types Sample.identity 13 = cls_StageChannel ∧
  @_channel_factory Sample.channel_types Sample.identity 15 = cls_GuildChannel.
Proof.
  assert (∀ a b : Z, (a =? b) = true → a = b) as Hsound
    by (intros a b Heq; by apply Z.eqb_eq).
  assert (∀ a : Z, small_int a → (a =? a) = true) as Hsmall
    by (intros a _; apply Z.eqb_refl).
  assert (Forall small_int [0; 5; 4; 2; 13]) as Hcodes
    by (repeat constructor; simpl; lia).
  assert (NoDup [0; 5; 4; 2; 13]) as Hdistinct
    by (apply (bool_decide_unpack _); vm_compute; exact I).
  destruct (@channel_factory_mapping Sample.channel_types Sample.identity
              Hsound Hsmall Hcodes Hdistinct)
    as (Htext & Hnews & Hcategory & Hvoice & Hstage & Hother).
  split; [exact Htext|]. split; [exact Hnews|]. split; [exact Hcategory|].
  split; [exact Hvoice|]. split; [exact Hstage|].
  apply Hother. apply (bool_decide_unpack _). vm_compute. exact I.
Defined.

Lemma member_role_lists_stay_in_step_witness :
  roles_in_step Sample.member ∧
  roles_in_step
    (@GuildMember.edit Sample.server Sample.timestamps
       EMPTY (Val [Sample.helper]) EMPTY EMPTY EMPTY None Sample.member Sample.world).1.2 ∧
  roles_in_step
    (@GuildMember.add_roles Sample.server Sample.timestamps
       [Sample.helper] false true None Sample.member Sample.world).1.2.
Proof.
  pose proof (@member_role_lists_stay_in_step Sample.server Sample.timestamps)
    as (_ & Hinit & Hmethods).
  assert (roles_in_step Sample.member) as Hmember.
  { exists Sample.the_guild. apply (Hinit Sample.the_guild Sample.member_data). }
  destruct (Hmethods Sample.member Sample.world Hmember) as (Hedit & Hadd & _).
  split; [exact Hmember|split].
  - apply (Hedit EMPTY (Val [Sample.helper]) EMPTY EMPTY EMPTY None).
  - apply (Hadd [Sample.helper] false true None).
Defined.

Lemma unresolved_role_kept_as_None_witness :
  GuildMember.roles (@GuildMember._update_with_data Sample.timestamps
                       Sample.the_guild Sample.member_data) !! 1%nat = Some None ∧
  GuildMember.role_ids (@GuildMember._update_with_data Sample.timestamps
                          Sample.the_guild Sample.member_data) !! 1%nat = Some 99.
Proof.
  apply (@unresolved_role_kept_as_None Sample.timestamps Sample.the_guild
           Sample.member_data 1%nat 99).
  - reflexivity.
  - vm_compute. reflexivity.
Defined.

(** * Further properties of the models *)

(** ** The per-role loops *)

Section per_role_loops.
Context `{!RestServer}.

Lemma add_roles_loop_per_role existing_roles guild_id user_id ignore_extra reason
    (roles : list Role.t) (ret : list (option Role.t)) (self : GuildMember.t) (w : World) :
  GuildMember.add_roles_loop existing_roles guild_id user_id ignore_extra reason
    roles ret self w =
  per_role_loop (λ role, bool_decide (Role.id role ∈ existing_roles) && ignore_extra)
    (λ role, AddGuildMemberRole guild_id user_id (Role.id role) reason)
    add_guild_member_role_reply roles ret self w.
Proof.
  revert ret self w. induction roles as [|role roles IH]; intros ret self w; [done|].
  simpl. destruct (_ && _); [apply IH|].
  unfold bind, Rest.add_guild_member_role.
  destruct (send _ _ self w) as [[[[]|e] self'] w']; [apply IH|done].
Qed.

Lemma remove_roles_loop_per_role existing_roles guild_id user_id ignore_extra reason
    (roles : list Role.t) (ret : list (option Role.t)) (self : GuildMember.t) (w : World) :
  GuildMember.remove_roles_loop existing_roles guild_id user_id ignore_extra reason
    roles ret self w =
  per_role_loop
    (λ role, negb (bool_decide (Role.id role ∈ existing_roles)) && ignore_extra)
    (λ role, RemoveGuildMemberRole guild_id user_id (Role.id role) reason)
    remove_guild_member_role_reply roles ret self w.
Proof.
  revert ret self w. induction roles as [|role roles IH]; intros ret self w; [done|].
  simpl. destruct (_ && _); [apply IH|].
  unfold bind, Rest.remove_guild_member_role.
  destruct (send _ _ self w) as [[[[]|e] self'] w']; [apply IH|done].
Qed.
End per_role_loops.

Section per_role_loop.
Variables (skip : Role.t → bool) (request : Role.t → Request)
  (reply : list Request → result unit).

Local Abbreviation kept := (filter (λ role, skip role = false)).

Lemma kept_cons role roles :
  kept (role :: roles) = if skip role then kept roles else role :: kept roles.
Proof.
  rewrite filter_cons. destruct (skip role); by case_decide.
Qed.

Lemma per_role_loop_all_answered (roles : list Role.t) (ret : list (option Role.t))
    (self : GuildMember.t) (w : World) :
  all_answered reply w (map request (kept roles)) →
  per_role_loop skip request reply roles ret self w =
  (Ok (ret ++ (Some <$> kept roles)), self, sent_all w (map request (kept roles))).
Proof.
  revert ret w. induction roles as [|role roles IH]; intros ret w Hreply.
  - simpl. unfold pure. by rewrite app_nil_r, sent_all_nil.
  - simpl. rewrite kept_cons in *. destruct (skip role); [by apply IH|].
    unfold bind at 1, send.
    pose proof (Hreply 0%nat) as H0; simpl in H0. rewrite take_0 in H0.
    rewrite H0 by lia. fold (sent w (request role)).
    rewrite IH.
    + rewrite sent_all_cons. simpl. by rewrite <- app_assoc.
    + intros n Hn. simpl. rewrite <- app_assoc. simpl.
      apply (Hreply (S n)). simpl. lia.
Qed.

(** The loop goes request by request.  Either every expected request is
    answered, and the loop returns the roles it sent one for; or some
    request is the first to be refused, and the loop ends there: the
    refusal is raised and no later request is sent.  Either way the member
    is left alone. *)
Lemma per_role_loop_outcome (roles : list Role.t) (ret : list (option Role.t))
    (self : GuildMember.t) (w : World) :
  (all_answered reply w (map request (kept roles)) ∧
   per_role_loop skip request reply roles ret self w =
   (Ok (ret ++ (Some <$> kept roles)), self, sent_all w (map request (kept roles)))) ∨
  (∃ (n : nat) (e : exn),
     (n < length (map request (kept roles)))%nat ∧
     (∀ m : nat, (m < n)%nat →
        reply (requests w ++ take (S m) (map request (kept roles))) = Ok tt) ∧
     reply (requests w ++ take (S n) (map request (kept roles))) = Raise e ∧
     per_role_loop skip request reply roles ret self w =
     (Raise e, self, sent_all w (take (S n) (map request (kept roles))))).
Proof.
  revert ret w. induction roles as [|role roles IH]; intros ret w.
  - left. split; [intros n Hn; simpl in Hn; lia|].
    simpl. unfold pure. by rewrite app_nil_r, sent_all_nil.
  - simpl. rewrite kept_cons. destruct (skip role); [apply IH|].
    unfold bind at 1 2, send. fold (sent w (request role)). simpl.
    destruct (reply (requests w ++ [request role])) as [[]|e] eqn:Hfirst.
    + destruct (IH (ret ++ [Some role]) (sent w (request role)))
        as [[Hall Hrun]|(n & e & Hn & Hbefore & Hrefused & Hrun)].
      * left. split.
        -- intros [|n] Hn; simpl; [by rewrite take_0|].
           specialize (Hall n). simpl in Hall. rewrite <- app_assoc in Hall.
           apply Hall. simpl in Hn. lia.
        -- rewrite Hrun, sent_all_cons. by rewrite <- app_assoc.
      * right. exists (S n), e. split; [simpl; lia|]. split; [|split].
        -- intros [|m] Hm; simpl; [by rewrite take_0|].
           specialize (Hbefore m). simpl in Hbefore. rewrite <- app_assoc in Hbefore.
           apply Hbefore. lia.
        -- simpl in Hrefused. by rewrite <- app_assoc in Hrefused.
        -- by rewrite Hrun, sent_all_cons.
    + right. exists 0%nat, e. split; [simpl; lia|]. split; [intros m Hm; lia|].
      simpl. rewrite take_0. split; [done|].
      by rewrite <- sent_all_cons, sent_all_nil.
Qed.
End per_role_loop.

Lemma kept_not_held (existing_roles : list Z) (roles : list Role.t) :
  filter (λ role, bool_decide (Role.id role ∈ existing_roles) && true = false) roles
  = filter (λ role, Role.id role ∉ existing_roles) roles.
Proof.
  apply list_filter_iff. intros role. rewrite andb_true_r.
  by rewrite bool_decide_eq_false.
Qed.

Lemma kept_held (existing_roles : list Z) (roles : list Role.t) :
  filter (λ role, negb (bool_decide (Role.id role ∈ existing_roles)) && true = false) roles
  = filter (λ role, Role.id role ∈ existing_roles) roles.
Proof.
  apply list_filter_iff. intros role. rewrite andb_true_r, negb_false_iff.
  by rewrite bool_decide_eq_true.
Qed.

Lemma kept_all (test : Role.t → bool) (roles : list Role.t) :
  filter (λ role, test role && false = false) roles = roles.
Proof.
  induction roles as [|role roles IH]; [done|].
  rewrite filter_cons, IH. rewrite andb_false_r. by case_decide.
Qed.

Lemma tuple_truthy_cons {A} (x : A) (xs : list A) : tuple_truthy (x :: xs) = true.
Proof. done. Qed.

Section role_methods.
Context `{!RestServer, !Timestamps}.

Lemma add_roles_loop_path roles ignore_extra reason (self : GuildMember.t) (w : World) :
  GuildMember.add_roles roles false ignore_extra reason self w =
  per_role_loop
    (λ role, bool_decide (Role.id role ∈ GuildMember.role_ids self) && ignore_extra)
    (λ role, AddGuildMemberRole (Guild.id (guild w)) (User.id (GuildMember.user self))
               (Role.id role) reason)
    add_guild_member_role_reply roles [] self w.
Proof.
  unfold GuildMember.add_roles. rewrite andb_false_r.
  unfold bind, get_self, get_world; simpl. apply add_roles_loop_per_role.
Qed.

Lemma remove_roles_loop_path roles ignore_extra reason (self : GuildMember.t) (w : World) :
  roles ≠ [] →
  GuildMember.remove_roles roles ignore_extra reason self w =
  per_role_loop
    (λ role, negb (bool_decide (Role.id role ∈ GuildMember.role_ids self)) && ignore_extra)
    (λ role, RemoveGuildMemberRole (Guild.id (guild w)) (User.id (GuildMember.user self))
               (Role.id role) reason)
    remove_guild_member_role_reply roles [] self w.
Proof.
  intros Hroles. unfold GuildMember.remove_roles.
  destruct roles as [|role roles]; [done|]. rewrite tuple_truthy_cons. simpl negb.
  cbv iota. unfold bind at 1 2, get_self, get_world.
  apply remove_roles_loop_per_role.
Qed.
End role_methods.

(** With [ignore_extra] off, [add_roles] sends a request for every given
    role, held or not, in the given order, and returns all of them. *)
Theorem add_roles_not_ignoring_extra `{!RestServer, !Timestamps} :
  ∀ (roles : list Role.t) (reason : option string) (self : GuildMember.t) (w : World),
    let calls :=
      map (λ role, AddGuildMemberRole (Guild.id (guild w))
                     (User.id (GuildMember.user self)) (Role.id role) reason) roles in
    all_answered add_guild_member_role_reply w calls →
    GuildMember.add_roles roles false false reason self w
    = (Ok (Some <$> roles), self, sent_all w calls).
Proof.
  intros roles reason self w calls Hreply. rewrite add_roles_loop_path.
  subst calls. rewrite <- (kept_all (λ role, bool_decide
                                       (Role.id role ∈ GuildMember.role_ids self)) roles)
    in Hreply |- * at 2 3.
  by rewrite (per_role_loop_all_answered _ _ _ roles [] self w Hreply).
Qed.

(** [remove_roles] with at least one role and [ignore_extra] on sends one
    remove request for each given role that the member holds, in the given
    order, none for the others, and returns the roles it sent a request
    for; the member is left as it was, so nothing is removed in bulk even
    when no given role is held. *)
Theorem remove_roles_one_call_per_held_role `{!RestServer, !Timestamps} :
  ∀ (roles : list Role.t) (reason : option string) (self : GuildMember.t) (w : World),
    let removed := filter (λ role, Role.id role ∈ GuildMember.role_ids self) roles in
    let calls :=
      map (λ role, RemoveGuildMemberRole (Guild.id (guild w))
                     (User.id (GuildMember.user self)) (Role.id role) reason) removed in
    roles ≠ [] →
    all_answered remove_guild_member_role_reply w calls →
    GuildMember.remove_roles roles true reason self w
    = (Ok (Some <$> removed), self, sent_all w calls).
Proof.
  intros roles reason self w removed calls Hroles Hreply.
  rewrite remove_roles_loop_path by done.
  subst calls removed. rewrite <- kept_held in Hreply |- *.
  by rewrite (per_role_loop_all_answered _ _ _ roles [] self w Hreply).
Qed.

(** With [ignore_extra] off, [remove_roles] sends a remove request for
    every given role, held or not, and returns all of them. *)
Theorem remove_roles_not_ignoring_extra `{!RestServer, !Timestamps} :
  ∀ (roles : list Role.t) (reason : option string) (self : GuildMember.t) (w : World),
    let calls :=
      map (λ role, RemoveGuildMemberRole (Guild.id (guild w))
                     (User.id (GuildMember.user self)) (Role.id role) reason) roles in
    roles ≠ [] →
    all_answered remove_guild_member_role_reply w calls →
    GuildMember.remove_roles roles false reason self w
    = (Ok (Some <$> roles), self, sent_all w calls).
Proof.
  intros roles reason self w calls Hroles Hreply.
  rewrite remove_roles_loop_path by done.
  subst calls. rewrite <- (kept_all (λ role, negb (bool_decide
                                       (Role.id role ∈ GuildMember.role_ids self))) roles)
    in Hreply |- * at 2 3.
  by rewrite (per_role_loop_all_answered _ _ _ roles [] self w Hreply).
Qed.

(** [add_roles] without [overwrite] and [remove_roles] with at least one
    role go request by request through the roles they do not skip (with
    [ignore_extra], [add_roles] skips the roles held and [remove_roles] the
    roles not held).  Either every request is answered and the method
    returns those roles; or some request is the first to be refused, the
    refusal is raised and nothing is sent after it.  In both cases, and
    whatever [ignore_extra] is, the member is left as it was. *)
Theorem per_role_calls_stop_at_first_refusal `{!RestServer, !Timestamps} :
  ∀ (roles : list Role.t) (ignore_extra : bool) (reason : option string)
    (self : GuildMember.t) (w : World),
    (let kept :=
       if ignore_extra
       then filter (λ role, Role.id role ∉ GuildMember.role_ids self) roles
       else roles in
     let calls :=
       map (λ role, AddGuildMemberRole (Guild.id (guild w))
                      (User.id (GuildMember.user self)) (Role.id role) reason) kept in
     let run := GuildMember.add_roles roles false ignore_extra reason self w in
     (all_answered add_guild_member_role_reply w calls ∧
      run = (Ok (Some <$> kept), self, sent_all w calls)) ∨
     (∃ (n : nat) (e : exn),
        (n < length calls)%nat ∧
        (∀ m : nat, (m < n)%nat →
           add_guild_member_role_reply (requests w ++ take (S m) calls) = Ok tt) ∧
        add_guild_member_role_reply (requests w ++ take (S n) calls) = Raise e ∧
        run = (Raise e, self, sent_all w (take (S n) calls)))) ∧
    (roles ≠ [] →
     let kept :=
       if ignore_extra
       then filter (λ role, Role.id role ∈ GuildMember.role_ids self) roles
       else roles in
     let calls :=
       map (λ role, RemoveGuildMemberRole (Guild.id (guild w))
                      (User.id (GuildMember.user self)) (Role.id role) reason) kept in
     let run := GuildMember.remove_roles roles ignore_extra reason self w in
     (all_answered remove_guild_member_role_reply w calls ∧
      run = (Ok (Some <$> kept), self, sent_all w calls)) ∨
     (∃ (n : nat) (e : exn),
        (n < length calls)%nat ∧
        (∀ m : nat, (m < n)%nat →
           remove_guild_member_role_reply (requests w ++ take (S m) calls) = Ok tt) ∧
        remove_guild_member_role_reply (requests w ++ take (S n) calls) = Raise e ∧
        run = (Raise e, self, sent_all w (take (S n) calls)))).
Proof.
  intros roles ignore_extra reason self w. split.
  - intros kept calls run. subst run calls kept. rewrite add_roles_loop_path.
    pose proof (per_role_loop_outcome
                  (λ role, bool_decide (Role.id role ∈ GuildMember.role_ids self)
                           && ignore_extra)
                  (λ role, AddGuildMemberRole (Guild.id (guild w))
                             (User.id (GuildMember.user self)) (Role.id role) reason)
                  add_guild_member_role_reply roles [] self w) as Houtcome.
    destruct ignore_extra.
    + by rewrite kept_not_held in Houtcome.
    + by rewrite kept_all in Houtcome.
  - intros Hroles kept calls run. subst run calls kept.
    rewrite remove_roles_loop_path by done.
    pose proof (per_role_loop_outcome
                  (λ role, negb (bool_decide (Role.id role ∈ GuildMember.role_ids self))
                           && ignore_extra)
                  (λ role, RemoveGuildMemberRole (Guild.id (guild w))
                             (User.id (GuildMember.user self)) (Role.id role) reason)
                  remove_guild_member_role_reply roles [] self w) as Houtcome.
    destruct ignore_extra.
    + by rewrite kept_held in Houtcome.
    + by rewrite kept_all in Houtcome.
Qed.

(** The per-role path does not refresh [role_ids]: calling [add_roles] a
    second time with the same roles sends the same requests again. *)
Theorem add_roles_twice_sends_twice `{!RestServer, !Timestamps} :
  ∀ (roles : list Role.t) (reason : option string) (self : GuildMember.t) (w : World),
    let added := filter (λ role, Role.id role ∉ GuildMember.role_ids self) roles in
    let calls :=
      map (λ role, AddGuildMemberRole (Guild.id (guild w))
                     (User.id (GuildMember.user self)) (Role.id role) reason) added in
    all_answered add_guild_member_role_reply w (calls ++ calls) →
    (GuildMember.add_roles roles false true reason ;;
     GuildMember.add_roles roles false true reason) self w
    = (Ok (Some <$> added), self, sent_all w (calls ++ calls)).
Proof.
  intros roles reason self w added calls Hreply.
  assert (all_answered add_guild_member_role_reply w calls) as Hfirst.
  { intros n Hn. specialize (Hreply n). rewrite take_app_le in Hreply by lia.
    apply Hreply. rewrite length_app. lia. }
  assert (all_answered add_guild_member_role_reply (sent_all w calls) calls) as Hsecond.
  { intros n Hn. specialize (Hreply (length calls + n)%nat).
    simpl. rewrite <- app_assoc.
    replace (S (length calls + n)) with (length calls + S n)%nat in Hreply by lia.
    rewrite take_app_add in Hreply. apply Hreply. rewrite length_app. lia. }
  unfold bind. rewrite add_roles_loop_path.
  subst calls added. rewrite <- kept_not_held in *.
  rewrite (per_role_loop_all_answered _ _ _ roles [] self w Hfirst).
  rewrite add_roles_loop_path. simpl guild.
  rewrite (per_role_loop_all_answered _ _ _ roles [] self _ Hsecond).
  unfold sent_all; simpl. by rewrite <- app_assoc.
Qed.

(** For one role and with [ignore_extra], exactly one of [add_roles] and
    [remove_roles] sends a request: the removal when the member's [role_ids]
    hold the role's id, the addition when they do not. *)
Theorem add_and_remove_are_complementary `{!RestServer, !Timestamps} :
  ∀ (role : Role.t) (reason : option string) (self : GuildMember.t) (w : World),
    let add := GuildMember.add_roles [role] false true reason self w in
    let remove := GuildMember.remove_roles [role] true reason self w in
    (Role.id role ∈ GuildMember.role_ids self →
       add = (Ok [], self, w) ∧
       remove.2 = sent w (RemoveGuildMemberRole (Guild.id (guild w))
                            (User.id (GuildMember.user self)) (Role.id role) reason)) ∧
    (Role.id role ∉ GuildMember.role_ids self →
       remove = (Ok [], self, w) ∧
       add.2 = sent w (AddGuildMemberRole (Guild.id (guild w))
                         (User.id (GuildMember.user self)) (Role.id role) reason)).
Proof.
  intros role reason self w add remove. subst add remove.
  rewrite add_roles_loop_path, remove_roles_loop_path by done. simpl.
  split; intros Hrole.
  - rewrite bool_decide_eq_true_2 by done. simpl. split; [done|].
    unfold bind, send. fold (sent w (RemoveGuildMemberRole (Guild.id (guild w))
                                       (User.id (GuildMember.user self)) (Role.id role) reason)).
    by destruct (remove_guild_member_role_reply _) as [[]|e].
  - rewrite bool_decide_eq_false_2 by done. simpl. split; [done|].
    unfold bind, send. fold (sent w (AddGuildMemberRole (Guild.id (guild w))
                                       (User.id (GuildMember.user self)) (Role.id role) reason)).
    by destruct (add_guild_member_role_reply _) as [[]|e].
Qed.

Lemma GuildMember_edit_json_roles `{!Timestamps} (roles : list Role.t) :
  GuildMember.edit_json EMPTY (Val roles) EMPTY EMPTY EMPTY
  = Ok {["roles" := JList (map (λ role, JInt (Role.id role)) roles)]}.
Proof.
  apply GuildMember_edit_json_Ok. unfold GuildMember_body, put_val; simpl.
  by rewrite insert_empty.
Qed.

(** [add_roles] with [overwrite] and at least one role is one bulk edit:
    a single request whose body holds the ids of the given roles, in order;
    the member is re-hydrated from the reply and the roles returned are the
    re-hydrated ones, not the given ones; [ignore_extra] plays no part.
    With no role at all, [add_roles] sends nothing and returns the empty
    list, whatever its flags. *)
Theorem add_roles_overwrite_is_bulk_edit `{!RestServer, !Timestamps} :
  ∀ (roles : list Role.t) (overwrite ignore_extra : bool) (reason : option string)
    (self : GuildMember.t) (w : World),
    (roles ≠ [] →
     GuildMember.add_roles roles true ignore_extra reason self w =
     let body : Json := {["roles" := JList (map (λ role, JInt (Role.id role)) roles)]} in
     let w' := sent w (EditGuildMember (Guild.id (guild w))
                         (User.id (GuildMember.user self)) body reason) in
     match edit_guild_member_reply (requests w') with
     | Ok data =>
         let self' := GuildMember._update_with_data (guild w) data in
         (Ok (GuildMember.roles self'), self', w')
     | Raise e => (Raise e, self, w')
     end) ∧
    GuildMember.add_roles [] overwrite ignore_extra reason self w = (Ok [], self, w).
Proof.
  intros. split; [|by destruct overwrite].
  intros Hroles. unfold GuildMember.add_roles.
  destruct roles as [|role roles]; [done|]. rewrite tuple_truthy_cons.
  change (true && true) with true. cbv iota. unfold bind at 1.
  rewrite GuildMember_edit_run, GuildMember_edit_json_roles, dict_truthy_singleton.
  simpl. by destruct (edit_guild_member_reply _) as [data|e].
Qed.

(** ** When an [edit] sends its request *)


(** An [edit] sends at most one request, to its own channel or member and
    with the reason it was given; it sends it exactly when its checks accept
    the arguments and at least one field is passed, an explicit [None]
    counting as passed. *)
Theorem edit_sends_request_iff_field_passed `{!RestServer, !Timestamps, !ChannelType} :
  (∀ name type position nsfw parent topic slowmode_delay default_auto_archive_duration
     reason (self : TextChannel.t) (w : World),
     let w' := (TextChannel.edit name type position nsfw parent topic slowmode_delay
                  default_auto_archive_duration reason self w).2 in
     (w' = w ∨
      ∃ json, w' = sent w (EditChannel (GuildChannel.id (TextChannel.base self))
                             json reason)) ∧
     (w' ≠ w ↔
      type_accepted type ∧ duration_accepted default_auto_archive_duration ∧
      (name ≠ EMPTY ∨ type ≠ EMPTY ∨ position ≠ EMPTY ∨ nsfw ≠ EMPTY ∨ parent ≠ EMPTY ∨
       topic ≠ EMPTY ∨ slowmode_delay ≠ EMPTY ∨ default_auto_archive_duration ≠ EMPTY))) ∧
  (∀ name position bitrate parent rtc_region user_limit video_quality_mode
     reason (self : VoiceChannel.t) (w : World),
     let w' := (VoiceChannel.edit name position bitrate parent rtc_region user_limit
                  video_quality_mode reason self w).2 in
     (w' = w ∨
      ∃ json, w' = sent w (EditChannel (GuildChannel.id (VoiceChannel.base self))
                             json reason)) ∧
     (w' ≠ w ↔
      bitrate_accepted bitrate ∧
      (name ≠ EMPTY ∨ position ≠ EMPTY ∨ bitrate ≠ EMPTY ∨ parent ≠ EMPTY ∨
       rtc_region ≠ EMPTY ∨ user_limit ≠ EMPTY ∨ video_quality_mode ≠ EMPTY))) ∧
  (∀ name position reason (self : CategoryChannel.t) (w : World),
     let w' := (CategoryChannel.edit name position reason self w).2 in
     (w' = w ∨ ∃ json, w' = sent w (EditChannel (GuildChannel.id self) json reason)) ∧
     (w' ≠ w ↔ name ≠ EMPTY ∨ position ≠ EMPTY)) ∧
  (∀ nickname roles mute deaf timeout_until reason (self : GuildMember.t) (w : World),
     let w' := (GuildMember.edit nickname roles mute deaf timeout_until reason self w).2 in
     (w' = w ∨
      ∃ json, w' = sent w (EditGuildMember (Guild.id (guild w))
                             (User.id (GuildMember.user self)) json reason)) ∧
     (w' ≠ w ↔
      nickname ≠ EMPTY ∨ roles ≠ EMPTY ∨ mute ≠ EMPTY ∨ deaf ≠ EMPTY ∨
      timeout_until ≠ EMPTY)).
Proof.
  split; [|split; [|split]].
  - intros. subst w'. rewrite TextChannel_edit_world.
    destruct (TextChannel.edit_json _ _ _ _ _ _ _ _) as [json|e] eqn:Hjson.
    + apply TextChannel_edit_json_Ok in Hjson as (Htype & Hd & ->).
      assert (size (TextChannel_body name type position nsfw parent topic slowmode_delay
                      default_auto_archive_duration)
              = (passed name + passed type + passed position + passed nsfw +
                 passed topic + passed slowmode_delay +
                 passed default_auto_archive_duration + passed parent)%nat) as Hsize
        by (unfold TextChannel_body; chain_size; unfold passed; lia).
      destruct (dict_truthy _) eqn:Htruthy.
      * split; [right; eauto|]. split; [intros _|intros _; apply sent_ne].
        apply dict_truthy_size in Htruthy. rewrite Hsize in Htruthy.
        split; [done|split; [done|]].
        destruct (passed_cases name), (passed_cases type), (passed_cases position),
          (passed_cases nsfw), (passed_cases topic), (passed_cases slowmode_delay),
          (passed_cases default_auto_archive_duration), (passed_cases parent);
          intuition lia.
      * split; [by left|]. split; [done|]. intros (_ & _ & Hsome). exfalso.
        apply not_true_iff_false in Htruthy. apply Htruthy, dict_truthy_size.
        rewrite Hsize.
        destruct (passed_cases name), (passed_cases type), (passed_cases position),
          (passed_cases nsfw), (passed_cases topic), (passed_cases slowmode_delay),
          (passed_cases default_auto_archive_duration), (passed_cases parent);
          intuition lia.
    + split; [by left|]. split; [done|]. intros (Htype & Hd & _).
      pose proof (proj2 (TextChannel_edit_json_Ok name type position nsfw parent topic
                           slowmode_delay default_auto_archive_duration _)
                    (conj Htype (conj Hd eq_refl))) as Hok.
      congruence.
  - intros. subst w'. rewrite VoiceChannel_edit_world.
    destruct (VoiceChannel.edit_json _ _ _ _ _ _ _) as [json|e] eqn:Hjson.
    + apply VoiceChannel_edit_json_Ok in Hjson as (Hbitrate & ->).
      assert (size (VoiceChannel_body name position bitrate parent rtc_region user_limit
                      video_quality_mode)
              = (passed name + passed position + passed rtc_region + passed bitrate +
                 passed user_limit + passed video_quality_mode + passed parent)%nat)
        as Hsize by (unfold VoiceChannel_body; chain_size; unfold passed; lia).
      destruct (dict_truthy _) eqn:Htruthy.
      * split; [right; eauto|]. split; [intros _|intros _; apply sent_ne].
        apply dict_truthy_size in Htruthy. rewrite Hsize in Htruthy.
        split; [done|].
        destruct (passed_cases name), (passed_cases position), (passed_cases rtc_region),
          (passed_cases bitrate), (passed_cases user_limit),
          (passed_cases video_quality_mode), (passed_cases parent);
          intuition lia.
      * split; [by left|]. split; [done|]. intros (_ & Hsome). exfalso.
        apply not_true_iff_false in Htruthy. apply Htruthy, dict_truthy_size.
        rewrite Hsize.
        destruct (passed_cases name), (passed_cases position), (passed_cases rtc_region),
          (passed_cases bitrate), (passed_cases user_limit),
          (passed_cases video_quality_mode), (passed_cases parent);
          intuition lia.
    + split; [by left|]. split; [done|]. intros (Hbitrate & _).
      pose proof (proj2 (VoiceChannel_edit_json_Ok name position bitrate parent rtc_region
                           user_limit video_quality_mode _)
                    (conj Hbitrate eq_refl)) as Hok.
      congruence.
  - intros. subst w'. rewrite CategoryChannel_edit_world.
    destruct (CategoryChannel.edit_json _ _) as [json|e] eqn:Hjson.
    + apply CategoryChannel_edit_json_Ok in Hjson as ->.
      assert (size (CategoryChannel_body name position)
              = (passed name + passed position)%nat) as Hsize
        by (unfold CategoryChannel_body; chain_size; unfold passed; lia).
      destruct (dict_truthy _) eqn:Htruthy.
      * split; [right; eauto|]. split; [intros _|intros _; apply sent_ne].
        apply dict_truthy_size in Htruthy. rewrite Hsize in Htruthy.
        destruct (passed_cases name), (passed_cases position); intuition lia.
      * split; [by left|]. split; [done|]. intros Hsome. exfalso.
        apply not_true_iff_false in Htruthy. apply Htruthy, dict_truthy_size.
        rewrite Hsize.
        destruct (passed_cases name), (passed_cases position); intuition lia.
    + by pose proof (proj2 (CategoryChannel_edit_json_Ok name position _) eq_refl).
  - intros. subst w'. rewrite GuildMember_edit_world.
    destruct (GuildMember.edit_json _ _ _ _ _) as [json|e] eqn:Hjson.
    + apply GuildMember_edit_json_Ok in Hjson as ->.
      assert (size (GuildMember_body nickname roles mute deaf timeout_until)
              = (passed nickname + passed roles + passed mute + passed deaf +
                 passed timeout_until)%nat) as Hsize
        by (unfold GuildMember_body; chain_size; unfold passed; lia).
      destruct (dict_truthy _) eqn:Htruthy.
      * split; [right; eauto|]. split; [intros _|intros _; apply sent_ne].
        apply dict_truthy_size in Htruthy. rewrite Hsize in Htruthy.
        destruct (passed_cases nickname), (passed_cases roles), (passed_cases mute),
          (passed_cases deaf), (passed_cases timeout_until); intuition lia.
      * split; [by left|]. split; [done|]. intros Hsome. exfalso.
        apply not_true_iff_false in Htruthy. apply Htruthy, dict_truthy_size.
        rewrite Hsize.
        destruct (passed_cases nickname), (passed_cases roles), (passed_cases mute),
          (passed_cases deaf), (passed_cases timeout_until); intuition lia.
    + by pose proof (proj2 (GuildMember_edit_json_Ok nickname roles mute deaf
                              timeout_until _) eq_refl).
Qed.

(** ** What an [edit] leaves behind *)

(** Once an [edit] has sent its request, the server's answer decides all:
    a payload replaces the whole state of the entity by its hydration (no
    field of the old state survives), an empty answer to a channel edit
    leaves the channel as it was, and a refusal is raised unchanged with the
    entity as it was.  When nothing is sent the entity is as it was. *)
Theorem edit_outcome_is_the_reply `{!RestServer, !Timestamps, !ChannelType} :
  (∀ name type position nsfw parent topic slowmode_delay default_auto_archive_duration
     reason (self : TextChannel.t) (w : World),
     let run := TextChannel.edit name type position nsfw parent topic slowmode_delay
                  default_auto_archive_duration reason self w in
     (run.2 = w → run.1.2 = self) ∧
     (run.2 ≠ w →
      run.1 = match edit_channel_reply (requests run.2) with
              | Ok (Some data) => (Ok tt, TextChannel._update_with_data data)
              | Ok None => (Ok tt, self)
              | Raise e => (Raise e, self)
              end)) ∧
  (∀ name position bitrate parent rtc_region user_limit video_quality_mode
     reason (self : VoiceChannel.t) (w : World),
     let run := VoiceChannel.edit name position bitrate parent rtc_region user_limit
                  video_quality_mode reason self w in
     (run.2 = w → run.1.2 = self) ∧
     (run.2 ≠ w →
      run.1 = match edit_channel_reply (requests run.2) with
              | Ok (Some data) => (Ok tt, VoiceChannel._update_with_data data)
              | Ok None => (Ok tt, self)
              | Raise e => (Raise e, self)
              end)) ∧
  (∀ name position reason (self : CategoryChannel.t) (w : World),
     let run := CategoryChannel.edit name position reason self w in
     (run.2 = w → run.1.2 = self) ∧
     (run.2 ≠ w →
      run.1 = match edit_channel_reply (requests run.2) with
              | Ok (Some data) => (Ok tt, CategoryChannel._update_with_data data)
              | Ok None => (Ok tt, self)
              | Raise e => (Raise e, self)
              end)) ∧
  (∀ nickname roles mute deaf timeout_until reason (self : GuildMember.t) (w : World),
     let run := GuildMember.edit nickname roles mute deaf timeout_until reason self w in
     (run.2 = w → run.1.2 = self) ∧
     (run.2 ≠ w →
      run.1 = match edit_guild_member_reply (requests run.2) with
              | Ok data => (Ok tt, GuildMember._update_with_data (guild w) data)
              | Raise e => (Raise e, self)
              end)).
Proof.
  split; [|split; [|split]]; intros; subst run.
  - rewrite TextChannel_edit_run.
    destruct (TextChannel.edit_json _ _ _ _ _ _ _ _) as [json|e]; [|done].
    destruct (dict_truthy json); [|done]. simpl.
    destruct (edit_channel_reply _) as [[data|]|e] eqn:Hreply; simpl; rewrite ?Hreply;
      (split; [intros Heq; by apply sent_ne in Heq|done]).
  - rewrite VoiceChannel_edit_run.
    destruct (VoiceChannel.edit_json _ _ _ _ _ _ _) as [json|e]; [|done].
    destruct (dict_truthy json); [|done]. simpl.
    destruct (edit_channel_reply _) as [[data|]|e] eqn:Hreply; simpl; rewrite ?Hreply;
      (split; [intros Heq; by apply sent_ne in Heq|done]).
  - rewrite CategoryChannel_edit_run.
    destruct (CategoryChannel.edit_json _ _) as [json|e]; [|done].
    destruct (dict_truthy json); [|done]. simpl.
    destruct (edit_channel_reply _) as [[data|]|e] eqn:Hreply; simpl; rewrite ?Hreply;
      (split; [intros Heq; by apply sent_ne in Heq|done]).
  - rewrite GuildMember_edit_run.
    destruct (GuildMember.edit_json _ _ _ _ _) as [json|e]; [|done].
    destruct (dict_truthy json); [|done]. simpl.
    destruct (edit_guild_member_reply _) as [data|e] eqn:Hreply; simpl; rewrite ?Hreply;
      (split; [intros Heq; by apply sent_ne in Heq|done]).
Qed.

(** ** Explicit values in the body *)


(** ** The channels of a category *)

(** [CategoryChannel.channels] is computed from the cache it is given, at
    each call: it holds exactly the cached channels whose [parent_id] is
    the id of the category, in the order of the cache, and a channel that
    enters the cache under the category shows in the next call. *)
Theorem category_channels_are_its_children :
  ∀ (cached : list Channel) (self : CategoryChannel.t),
    (∀ channel : Channel,
       channel ∈ CategoryChannel_channels cached self ↔
       channel ∈ cached ∧
       GuildChannel.parent_id (Channel_base channel) = Some (GuildChannel.id self)) ∧
    CategoryChannel_channels cached self `sublist_of` cached ∧
    (∀ channel : Channel,
       (GuildChannel.parent_id (Channel_base channel) = Some (GuildChannel.id self) →
        CategoryChannel_channels (cached ++ [channel]) self
        = CategoryChannel_channels cached self ++ [channel]) ∧
       (GuildChannel.parent_id (Channel_base channel) ≠ Some (GuildChannel.id self) →
        CategoryChannel_channels (cached ++ [channel]) self
        = CategoryChannel_channels cached self)).
Proof.
  intros cached self. unfold CategoryChannel_channels. split; [|split].
  - intros channel. rewrite list_elem_of_filter. tauto.
  - apply sublist_filter.
  - intros channel. rewrite filter_app, filter_cons, filter_nil. split; intros Hparent.
    + by rewrite decide_True.
    + rewrite decide_False by done. by rewrite app_nil_r.
Qed.

(** ** Mentions *)

Lemma py_str_inj (a b : Z) : py_str a = py_str b → a = b.
Proof.
  unfold py_str. intros Heq. apply DecimalZ.to_int_inj.
  assert (∀ n : Z, DecimalString.NilZero.int_of_string
                     (DecimalString.NilZero.string_of_int (Z.to_int n))
                   = Some (Z.to_int n)) as Hparse.
  { intros n. apply DecimalString.NilZero.isi; destruct n; simpl; try discriminate;
      intros Hnil; injection Hnil as Hnil;
      by apply DecimalPos.Unsigned.to_uint_nonnil in Hnil. }
  pose proof (Hparse a) as Ha. rewrite Heq, Hparse in Ha. by injection Ha.
Qed.

Lemma string_app_inj_r (s1 s2 tail : string) :
  String.length s1 = String.length s2 → s1 +:+ tail = s2 +:+ tail → s1 = s2.
Proof.
  revert s2. induction s1 as [|c1 s1 IH]; intros [|c2 s2] Hlen Heq; simpl in *;
    try done.
  injection Heq as -> Heq. f_equal. apply IH; [lia|done].
Qed.

Lemma string_app_length (s1 s2 : string) :
  String.length (s1 +:+ s2) = (String.length s1 + String.length s2)%nat.
Proof. induction s1 as [|c s1 IH]; simpl; [done|by rewrite IH]. Qed.

(** The mention of a channel identifies it: channels with the same mention
    have the same id. *)
Theorem mention_identifies_the_channel :
  ∀ c1 c2 : GuildChannel.t,
    GuildChannel_mention c1 = GuildChannel_mention c2 →
    GuildChannel.id c1 = GuildChannel.id c2.
Proof.
  intros c1 c2 Heq. unfold GuildChannel_mention in Heq.
  apply (inj (String.app "<#")) in Heq.
  apply py_str_inj. apply (string_app_inj_r _ _ ">"); [|done].
  apply (f_equal String.length) in Heq. rewrite !string_app_length in Heq.
  simpl in Heq. lia.
Qed.

(** ** Derived state of a member *)

(** [is_timed_out] sends nothing and leaves the member alone, whatever it
    answers.  Without a timeout it answers [False]; with a naive timeout it
    answers [True] exactly when the timeout lies strictly after the reading
    of the clock at the call, so a timeout that ends at the very instant of
    the call is over, and a later call reads the clock anew; with an aware
    timeout it raises [TypeError]. *)
Theorem is_timed_out_by_kind_of_timeout :
  ∀ (self : GuildMember.t) (w : World),
    (GuildMember.is_timed_out self w).1.2 = self ∧
    (GuildMember.is_timed_out self w).2 = w ∧
    (GuildMember.timeout_until self = None →
     GuildMember.is_timed_out self w = (Ok false, self, w)) ∧
    (∀ wall : Z, GuildMember.timeout_until self = Some (naive wall) →
       ∃ answer : bool,
         GuildMember.is_timed_out self w = (Ok answer, self, w) ∧
         (answer = true ↔ now w < wall)) ∧
    (∀ wall later : Z, GuildMember.timeout_until self = Some (naive wall) →
       now w < wall → wall ≤ later →
       GuildMember.is_timed_out self w = (Ok true, self, w) ∧
       GuildMember.is_timed_out self (at_time w later)
       = (Ok false, self, at_time w later)) ∧
    (∀ utc utcoffset : Z, GuildMember.timeout_until self = Some (aware utc utcoffset) →
       GuildMember.is_timed_out self w = (Raise TypeError, self, w)).
Proof.
  intros self w.
  unfold GuildMember.is_timed_out, bind, get_self, get_world, pure, lift.
  split; [|split; [|split; [|split; [|split]]]].
  - by destruct (GuildMember.timeout_until self).
  - by destruct (GuildMember.timeout_until self).
  - by intros ->.
  - intros wall ->. simpl. exists (now w <? wall). split; [done|]. apply Z.ltb_lt.
  - intros wall later -> Hahead Hlater. simpl. split; do 2 f_equal; f_equal.
    + by apply Z.ltb_lt.
    + by apply Z.ltb_ge.
  - by intros utc utcoffset ->.
Qed.

Lemma startswith_a_ (s : string) :
  String.prefix "a_" s = true ↔ ∃ rest, s = "a_" +:+ rest.
Proof.
  rewrite String.prefix_correct. split.
  - destruct s as [|c1 [|c2 rest]]; simpl; try done.
    intros Heq. injection Heq as -> -> _. by exists rest.
  - intros [rest ->]. simpl. by destruct rest.
Qed.

(** [is_avatar_animated] never fails on a missing avatar.  Guild only, it is
    [True] exactly for a guild avatar hash that starts with [a_]; otherwise
    exactly for a displayed avatar hash that does.  So an animated guild
    avatar makes both checks true, and a member without a guild avatar is
    judged by the avatar of its user. *)
Theorem is_avatar_animated_by_prefix :
  ∀ self : GuildMember.t,
    (GuildMember.is_avatar_animated true self = true ↔
     ∃ rest, GuildMember.avatar self = Some ("a_" +:+ rest)) ∧
    (GuildMember.is_avatar_animated false self = true ↔
     ∃ rest, GuildMember.display_avatar self = Some ("a_" +:+ rest)) ∧
    (GuildMember.is_avatar_animated true self = true →
     GuildMember.is_avatar_animated false self = true) ∧
    (GuildMember.avatar self = None →
     GuildMember.is_avatar_animated true self = false ∧
     GuildMember.is_avatar_animated false self
     = match User.avatar (GuildMember.user self) with
       | Some hash => String.prefix "a_" hash
       | None => false
       end).
Proof.
  intros self. unfold GuildMember.is_avatar_animated, GuildMember.display_avatar.
  destruct (GuildMember.avatar self) as [hash|].
  - rewrite startswith_a_. split; [|split; [|split]]; [| |done|done];
      (split; [intros [rest ->]; by exists rest|intros [rest Heq]; simplify_eq; by exists rest]).
  - split; [|split; [|split]]; [| |done|done].
    + split; [done|]. by intros [rest ?].
    + destruct (User.avatar _) as [hash|].
      * rewrite startswith_a_.
        split; [intros [rest ->]; by exists rest
               |intros [rest Heq]; simplify_eq; by exists rest].
      * split; [done|]. by intros [rest ?].
Qed.

(** ** Hydration of a member *)

(** What a payload leaves out.  A hydrated member is boosting exactly when
    the payload has a [premium_since]; without a
    [communication_disabled_until] it is not timed out at any time; without
    a [roles] key both role lists are empty; without a [nick] its display
    name is the name of its user; and its user is the payload's. *)
Theorem hydration_of_missing_keys `{!Timestamps} :
  ∀ (g : Guild.t) (data : MemberData.t) (w : World),
    let self := GuildMember._update_with_data g data in
    (GuildMember.is_boosting self = true ↔ is_Some (MemberData.premium_since data)) ∧
    (MemberData.communication_disabled_until data = None →
     GuildMember.is_timed_out self w = (Ok false, self, w)) ∧
    (MemberData.roles data = None →
     GuildMember.role_ids self = [] ∧ GuildMember.roles self = []) ∧
    (MemberData.nick data = None →
     GuildMember.display_name self = User.name (MemberData.user data)) ∧
    GuildMember.user self = MemberData.user data.
Proof.
  intros g data w self. subst self. split; [|split; [|split; [|split]]].
  - unfold GuildMember.is_boosting; simpl.
    destruct (MemberData.premium_since data); split; try done;
      try (intros _; by eexists); by intros [? ?].
  - intros Hnone. unfold GuildMember.is_timed_out, bind, get_self; simpl.
    by rewrite Hnone.
  - intros Hnone. simpl. by rewrite Hnone.
  - intros Hnone. unfold GuildMember.display_name; simpl. by rewrite Hnone.
  - done.
Qed.

Lemma resolved_role_id `{!Timestamps} (g : Guild.t) (data : MemberData.t)
    (i : nat) (role : Role.t) :
  (∀ role_id role, Guild.get_role g role_id = Some role → Role.id role = role_id) →
  GuildMember.roles (GuildMember._update_with_data g data) !! i = Some (Some role) →
  GuildMember.role_ids (GuildMember._update_with_data g data) !! i = Some (Role.id role).
Proof.
  intros Hcache. simpl. rewrite resolve_roles_map, list_lookup_fmap.
  destruct (default [] (MemberData.roles data) !! i) as [role_id|]; simpl; [|done].
  intros Heq. simplify_eq. f_equal. symmetry. by apply Hcache.
Qed.

(** With a role cache that files each role under its own id, a role that
    hydration resolved at some index has the id kept at that index in
    [role_ids]. *)
Theorem resolved_roles_carry_their_ids `{!Timestamps} :
  ∀ (g : Guild.t) (data : MemberData.t),
    (∀ role_id role, Guild.get_role g role_id = Some role → Role.id role = role_id) →
    let self := GuildMember._update_with_data g data in
    ∀ (i : nat) (role : Role.t),
      GuildMember.roles self !! i = Some (Some role) →
      GuildMember.role_ids self !! i = Some (Role.id role).
Proof. intros g data Hcache self i role. by apply resolved_role_id. Qed.

(** Under the same condition on the role cache, adding to a freshly
    hydrated member roles taken from its own [roles] sends no request and
    returns the empty list. *)
Theorem adding_held_roles_sends_nothing `{!RestServer, !Timestamps} :
  ∀ (g : Guild.t) (data : MemberData.t) (roles : list Role.t) (reason : option string)
    (w : World),
    (∀ role_id role, Guild.get_role g role_id = Some role → Role.id role = role_id) →
    let self := GuildMember._update_with_data g data in
    (∀ role, role ∈ roles → Some role ∈ GuildMember.roles self) →
    GuildMember.add_roles roles false true reason self w = (Ok [], self, w).
Proof.
  intros g data roles reason w Hcache self Hheld.
  assert (filter (λ role, Role.id role ∉ GuildMember.role_ids self) roles = []) as Hnone.
  { destruct (filter _ roles) as [|role rest] eqn:Hfilter; [done|]. exfalso.
    assert (role ∈ filter (λ role, Role.id role ∉ GuildMember.role_ids self) roles)
      as Hrole by (rewrite Hfilter; apply list_elem_of_here).
    apply list_elem_of_filter in Hrole as [Hnot Hrole]. apply Hnot.
    apply Hheld in Hrole. apply list_elem_of_lookup in Hrole as [i Hi].
    apply (resolved_role_id g data i role Hcache) in Hi.
    by apply list_elem_of_lookup_2 in Hi. }
  rewrite add_roles_loop_path, <- kept_not_held in *.
  rewrite (per_role_loop_all_answered _ _ _ roles [] self w).
  - rewrite Hnone. simpl. by rewrite sent_all_nil.
  - rewrite Hnone. intros n Hn. simpl in Hn. lia.
Qed.

(** ** A timeout through the wire *)

(** When the server answers an edit of the timeout with the timestamp it
    was sent, and parsing undoes the ISO form of that time, the member ends
    with the timeout it was given.  From then on, for a naive time it is
    timed out exactly while the clock reads less than that time; for an
    aware time [is_timed_out] raises [TypeError]. *)
Theorem edit_timeout_round_trip `{!RestServer, !Timestamps} :
  ∀ (t : datetime) (reason : option string) (self : GuildMember.t) (w : World)
    (data : MemberData.t),
    let rq := EditGuildMember (Guild.id (guild w)) (User.id (GuildMember.user self))
                {["communication_disabled_until" := JStr (isoformat t)]} reason in
    edit_guild_member_reply (requests w ++ [rq]) = Ok data →
    MemberData.communication_disabled_until data = Some (isoformat t) →
    parse_iso_timestamp (isoformat t) = t →
    ∃ self' : GuildMember.t,
      GuildMember.edit EMPTY EMPTY EMPTY EMPTY (Val t) reason self w
      = (Ok tt, self', sent w rq) ∧
      GuildMember.timeout_until self' = Some t ∧
      ∀ later : Z,
        GuildMember.is_timed_out self' (at_time (sent w rq) later)
        = (match t with
           | naive wall => Ok (later <? wall)
           | aware _ _ => Raise TypeError
           end, self', at_time (sent w rq) later).
Proof.
  intros t reason self w data rq Hreply Hecho Hparse.
  exists (GuildMember._update_with_data (guild w) data).
  assert (GuildMember.edit_json EMPTY EMPTY EMPTY EMPTY (Val t)
          = Ok {["communication_disabled_until" := JStr (isoformat t)]}) as Hjson.
  { apply GuildMember_edit_json_Ok. unfold GuildMember_body, put_val; simpl.
    by rewrite insert_empty. }
  split; [|split].
  - rewrite GuildMember_edit_run, Hjson, dict_truthy_singleton. simpl.
    fold rq. by rewrite Hreply.
  - simpl. by rewrite Hecho, Hparse.
  - intros later.
    unfold GuildMember.is_timed_out, bind, get_self, get_world, pure, lift.
    simpl. rewrite Hecho, Hparse. by destruct t.
Qed.

(** ** Deleting and kicking *)

(** [delete] and [kick] each send one request, for the channel or for the
    member of the guild, with the reason given; they hand back what the
    server answers, a refusal included, and leave the entity as it was:
    neither touches the local state. *)
Remark delete_and_kick_send_one_request `{!RestServer} :
  (∀ (reason : option string) (self : GuildChannel.t) (w : World),
     let w' := sent w (DeleteChannel (GuildChannel.id self) reason) in
     GuildChannel.delete reason self w = (delete_channel_reply (requests w'), self, w')) ∧
  (∀ (reason : option string) (self : GuildMember.t) (w : World),
     let w' := sent w (KickGuildMember (Guild.id (guild w))
                         (User.id (GuildMember.user self)) reason) in
     GuildMember.kick reason self w = (kick_guild_member_reply (requests w'), self, w')).
Proof. split; intros; reflexivity. Qed.

(** ** Local errors *)

(** The local checks run in the order of the source and raise before
    anything is sent: a rejected type raises the message about types, even
    when the duration is wrong too; an accepted type with a rejected
    duration raises the message about durations; a bitrate of [None] raises
    [TypeError] and one out of range the message about the range.  An edit
    of a category or of a member has no check: when it sends nothing it has
    returned normally. *)
Theorem edit_local_errors `{!RestServer, !Timestamps, !ChannelType} :
  (∀ name type position nsfw parent topic slowmode_delay default_auto_archive_duration
     reason (self : TextChannel.t) (w : World),
     let run := TextChannel.edit name type position nsfw parent topic slowmode_delay
                  default_auto_archive_duration reason self w in
     (¬ type_accepted type →
      run = (Raise (ValueError "type parameter only supports ChannelType.NEWS and TEXT."),
             self, w)) ∧
     (type_accepted type → ¬ duration_accepted default_auto_archive_duration →
      run = (Raise (ValueError ("Invalid value given for default_auto_archive_duration " +:+
                                "supported values are 60, 1440, 4320 and 10080.")),
             self, w))) ∧
  (∀ name position bitrate parent rtc_region user_limit video_quality_mode
     reason (self : VoiceChannel.t) (w : World),
     let run := VoiceChannel.edit name position bitrate parent rtc_region user_limit
                  video_quality_mode reason self w in
     (bitrate = PyNone → run = (Raise TypeError, self, w)) ∧
     (∀ b, bitrate = Val b → b < 8000 ∨ 128000 < b →
        run = (Raise (ValueError "Parameter 'bitrate' must be in range of 8000 and 128000"),
               self, w))) ∧
  (∀ name position reason (self : CategoryChannel.t) (w : World),
     (CategoryChannel.edit name position reason self w).2 = w →
     CategoryChannel.edit name position reason self w = (Ok tt, self, w)) ∧
  (∀ nickname roles mute deaf timeout_until reason (self : GuildMember.t) (w : World),
     (GuildMember.edit nickname roles mute deaf timeout_until reason self w).2 = w →
     GuildMember.edit nickname roles mute deaf timeout_until reason self w
     = (Ok tt, self, w)).
Proof.
  split; [|split; [|split]].
  - intros. subst run. rewrite TextChannel_edit_run.
    rewrite type_accepted_spec, duration_accepted_spec.
    unfold TextChannel.edit_json.
    destruct (is_not_EMPTY type); [destruct (py_in type [NEWS; TEXT])|]; simpl;
      (destruct (is_not_EMPTY default_auto_archive_duration);
       [destruct (py_in default_auto_archive_duration [60; 1440; 4320; 10080])|]; simpl);
      split; try done; intros; exfalso; naive_solver.
  - intros. subst run. rewrite VoiceChannel_edit_run. unfold VoiceChannel.edit_json.
    split; [by intros ->|]. intros b -> Hout. simpl.
    destruct (Z.ltb_spec b 8000); simpl; [done|].
    destruct (Z.gtb_spec b 128000); simpl; [done|lia].
  - intros * Hworld. rewrite CategoryChannel_edit_run in *.
    destruct (CategoryChannel.edit_json _ _) as [json|e] eqn:Hjson.
    + destruct (dict_truthy json); [|done]. simpl in *.
      destruct (edit_channel_reply _) as [[data|]|e]; by apply sent_ne in Hworld.
    + by pose proof (proj2 (CategoryChannel_edit_json_Ok name position _) eq_refl).
  - intros * Hworld. rewrite GuildMember_edit_run in *.
    destruct (GuildMember.edit_json _ _ _ _ _) as [json|e] eqn:Hjson.
    + destruct (dict_truthy json); [|done]. simpl in *.
      destruct (edit_guild_member_reply _) as [data|e]; by apply sent_ne in Hworld.
    + by pose proof (proj2 (GuildMember_edit_json_Ok nickname roles mute deaf
                              timeout_until _) eq_refl).
Qed.

(** ** The further properties on the sample deployment *)

Lemma sample_guild_files_roles_by_id :
  ∀ role_id role, Guild.get_role Sample.the_guild role_id = Some role →
                  Role.id role = role_id.
Proof.
  unfold Guild.get_role, Sample.the_guild; simpl. intros role_id role Hrole.
  apply lookup_insert_Some in Hrole as [[<- <-]|[_ Hrole]]; [done|].
  apply lookup_insert_Some in Hrole as [[<- <-]|[_ Hrole]]; [done|].
  by rewrite lookup_empty in Hrole.
Qed.

Lemma add_roles_not_ignoring_extra_witness :
  @GuildMember.add_roles Sample.server Sample.timestamps
    [Sample.moderator; Sample.helper] false false None Sample.member Sample.world
  = (Ok [Some Sample.moderator; Some Sample.helper], Sample.member,
     sent_all Sample.world [AddGuildMemberRole 1 7 11 None; AddGuildMemberRole 1 7 12 None]).
Proof.
  apply (@add_roles_not_ignoring_extra Sample.server Sample.timestamps
           [Sample.moderator; Sample.helper] None Sample.member Sample.world).
  intros n Hn. reflexivity.
Defined.

Lemma remove_roles_one_call_per_held_role_witness :
  @GuildMember.remove_roles Sample.server Sample.timestamps
    [Sample.helper; Sample.moderator] true None Sample.member Sample.world
  = (Ok [Some Sample.moderator], Sample.member,
     sent_all Sample.world [RemoveGuildMemberRole 1 7 11 None]).
Proof.
  apply (@remove_roles_one_call_per_held_role Sample.server Sample.timestamps
           [Sample.helper; Sample.moderator] None Sample.member Sample.world).
  - discriminate.
  - intros n Hn. reflexivity.
Defined.

Lemma remove_roles_not_ignoring_extra_witness :
  @GuildMember.remove_roles Sample.server Sample.timestamps
    [Sample.helper; Sample.moderator] false None Sample.member Sample.world
  = (Ok [Some Sample.helper; Some Sample.moderator], Sample.member,
     sent_all Sample.world
       [RemoveGuildMemberRole 1 7 12 None; RemoveGuildMemberRole 1 7 11 None]).
Proof.
  apply (@remove_roles_not_ignoring_extra Sample.server Sample.timestamps
           [Sample.helper; Sample.moderator] None Sample.member Sample.world).
  - discriminate.
  - intros n Hn. reflexivity.
Defined.

Lemma per_role_calls_stop_at_first_refusal_witness :
  @GuildMember.add_roles Sample.strict_server Sample.timestamps
    [Sample.moderator; Sample.helper; Sample.helper] false false None
    Sample.member Sample.world
  = (Raise HTTPForbidden, Sample.member,
     sent_all Sample.world [AddGuildMemberRole 1 7 11 None]).
Proof.
  destruct (@per_role_calls_stop_at_first_refusal Sample.strict_server Sample.timestamps
              [Sample.moderator; Sample.helper; Sample.helper] false None
              Sample.member Sample.world)
    as [[[Hall _]|(n & e & Hn & Hbefore & Hrefused & Hrun)] _].
  - specialize (Hall 0%nat). simpl in Hall. discriminate Hall. lia.
  - destruct n as [|n].
    + simpl in Hrefused. injection Hrefused as <-. exact Hrun.
    + specialize (Hbefore 0%nat). simpl in Hbefore. discriminate Hbefore. lia.
Defined.

Lemma add_roles_twice_sends_twice_witness :
  (@GuildMember.add_roles Sample.server Sample.timestamps
     [Sample.moderator; Sample.helper] false true None ;;
   @GuildMember.add_roles Sample.server Sample.timestamps
     [Sample.moderator; Sample.helper] false true None) Sample.member Sample.world
  = (Ok [Some Sample.helper], Sample.member,
     sent_all Sample.world [AddGuildMemberRole 1 7 12 None; AddGuildMemberRole 1 7 12 None]).
Proof.
  apply (@add_roles_twice_sends_twice Sample.server Sample.timestamps
           [Sample.moderator; Sample.helper] None Sample.member Sample.world).
  intros n Hn. reflexivity.
Defined.

Lemma add_and_remove_are_complementary_witness :
  @GuildMember.add_roles Sample.server Sample.timestamps
    [Sample.moderator] false true None Sample.member Sample.world
  = (Ok [], Sample.member, Sample.world) ∧
  @GuildMember.remove_roles Sample.server Sample.timestamps
    [Sample.helper] true None Sample.member Sample.world
  = (Ok [], Sample.member, Sample.world).
Proof.
  split.
  - apply (proj1 (@add_and_remove_are_complementary Sample.server Sample.timestamps
                    Sample.moderator None Sample.member Sample.world)).
    apply (bool_decide_unpack _). vm_compute. exact I.
  - apply (proj2 (@add_and_remove_are_complementary Sample.server Sample.timestamps
                    Sample.helper None Sample.member Sample.world)).
    apply (bool_decide_unpack _). vm_compute. exact I.
Defined.

Lemma add_roles_overwrite_is_bulk_edit_witness :
  @GuildMember.add_roles Sample2.server Sample.timestamps
    [Sample.moderator] true true None Sample.member Sample.world
  = (Ok [Some Sample.helper],
     @GuildMember._update_with_data Sample.timestamps Sample.the_guild Sample2.muted_data,
     sent Sample.world (EditGuildMember 1 7 {["roles" := JList [JInt 11]]} None)).
Proof.
  apply (proj1 (@add_roles_overwrite_is_bulk_edit Sample2.server Sample.timestamps
                  [Sample.moderator] true true None Sample.member Sample.world)).
  discriminate.
Defined.

Lemma edit_sends_request_iff_field_passed_witness :
  (@TextChannel.edit Sample.server Sample.timestamps Sample.channel_types
     EMPTY EMPTY EMPTY EMPTY EMPTY PyNone EMPTY EMPTY None
     Sample.text_channel Sample.world).2 ≠ Sample.world ∧
  (@GuildMember.edit Sample.server Sample.timestamps
     EMPTY EMPTY (Val true) EMPTY EMPTY None Sample.member Sample.world).2 ≠ Sample.world.
Proof.
  pose proof (@edit_sends_request_iff_field_passed Sample.server Sample.timestamps
                Sample.channel_types) as (Htext & _ & _ & Hmember).
  split.
  - apply (proj2 (Htext EMPTY EMPTY EMPTY EMPTY EMPTY PyNone EMPTY EMPTY None
                    Sample.text_channel Sample.world)).
    split; [by left|]. split; [by left|]. do 5 right. by left.
  - apply (proj2 (Hmember EMPTY EMPTY (Val true) EMPTY EMPTY None
                    Sample.member Sample.world)).
    do 2 right. by left.
Defined.

Lemma edit_outcome_is_the_reply_witness :
  (@TextChannel.edit Sample2.server Sample.timestamps Sample.channel_types
     (Val "lobby") EMPTY EMPTY EMPTY EMPTY EMPTY EMPTY EMPTY None
     Sample.text_channel Sample.world).1
  = (Ok tt, @TextChannel._update_with_data Sample.timestamps Sample2.renamed).
Proof.
  pose proof (@edit_outcome_is_the_reply Sample2.server Sample.timestamps
                Sample.channel_types) as (Htext & _).
  apply (proj2 (Htext (Val "lobby") EMPTY EMPTY EMPTY EMPTY EMPTY EMPTY EMPTY None
                  Sample.text_channel Sample.world)).
  intros Heq. apply (f_equal (λ w, length (requests w))) in Heq.
  vm_compute in Heq. discriminate.
Defined.


Lemma category_channels_are_its_children_witness :
  CategoryChannel_channels Sample2.cached Sample2.category
  = [a_VoiceChannel Sample2.lounge].
Proof.
  apply (proj1 (proj2 (proj2 (category_channels_are_its_children
                                [a_CategoryChannel Sample2.category;
                                 a_TextChannel Sample.text_channel]
                                Sample2.category)) (a_VoiceChannel Sample2.lounge))).
  reflexivity.
Defined.

Lemma mention_identifies_the_channel_witness :
  GuildChannel_mention (TextChannel.base Sample.text_channel) = "<#21>" ∧
  GuildChannel.id (TextChannel.base Sample.text_channel)
  = GuildChannel.id Sample2.stale_copy.
Proof.
  split; [reflexivity|].
  apply (mention_identifies_the_channel (TextChannel.base Sample.text_channel)
           Sample2.stale_copy).
  reflexivity.
Defined.

Lemma is_avatar_animated_by_prefix_witness :
  GuildMember.is_avatar_animated false
    (@GuildMember._update_with_data Sample.timestamps Sample.the_guild Sample2.muted_data)
  = true.
Proof.
  apply (proj1 (proj2 (proj2 (is_avatar_animated_by_prefix
                                (@GuildMember._update_with_data Sample.timestamps
                                   Sample.the_guild Sample2.muted_data))))).
  reflexivity.
Defined.

Lemma hydration_of_missing_keys_witness :
  GuildMember.is_timed_out Sample.member Sample.world
  = (Ok false, Sample.member, Sample.world).
Proof.
  apply (proj1 (proj2 (@hydration_of_missing_keys Sample.timestamps Sample.the_guild
                         Sample.member_data Sample.world))).
  reflexivity.
Defined.

Lemma resolved_roles_carry_their_ids_witness :
  GuildMember.role_ids Sample.member !! 0%nat = Some 11.
Proof.
  apply (@resolved_roles_carry_their_ids Sample.timestamps Sample.the_guild
           Sample.member_data sample_guild_files_roles_by_id 0%nat Sample.moderator).
  vm_compute. reflexivity.
Defined.

Lemma adding_held_roles_sends_nothing_witness :
  @GuildMember.add_roles Sample.strict_server Sample.timestamps
    [Sample.moderator] false true None Sample.member Sample.world
  = (Ok [], Sample.member, Sample.world).
Proof.
  apply (@adding_held_roles_sends_nothing Sample.strict_server Sample.timestamps
           Sample.the_guild Sample.member_data [Sample.moderator] None Sample.world
           sample_guild_files_roles_by_id).
  intros role Hrole. apply list_elem_of_singleton in Hrole as ->.
  vm_compute. apply list_elem_of_here.
Defined.

Lemma edit_timeout_round_trip_witness :
  ∃ self' : GuildMember.t,
    @GuildMember.edit Sample2.server Sample2.seconds
      EMPTY EMPTY EMPTY EMPTY (Val (naive 2000)) None Sample.member Sample.world
    = (Ok tt, self',
       sent Sample.world
         (EditGuildMember 1 7 {["communication_disabled_until" := JStr "2000"]} None)) ∧
    GuildMember.timeout_until self' = Some (naive 2000).
Proof.
  destruct (@edit_timeout_round_trip Sample2.server Sample2.seconds (naive 2000) None
              Sample.member Sample.world Sample2.muted_data)
    as (self' & Hedit & Htimeout & _); [reflexivity..|].
  exists self'. split; [exact Hedit|exact Htimeout].
Defined.

Lemma is_timed_out_by_kind_of_timeout_witness :
  GuildMember.is_timed_out Sample2.muted_member Sample.world
  = (Ok true, Sample2.muted_member, Sample.world) ∧
  GuildMember.is_timed_out Sample2.muted_member (at_time Sample.world 2000)
  = (Ok false, Sample2.muted_member, at_time Sample.world 2000).
Proof.
  apply (proj1 (proj2 (proj2 (proj2 (proj2 (is_timed_out_by_kind_of_timeout
                                              Sample2.muted_member Sample.world)))))
           2000 2000).
  - reflexivity.
  - simpl. lia.
  - lia.
Defined.

Lemma edit_local_errors_witness :
  @TextChannel.edit Sample.server Sample.timestamps Sample.channel_types
    EMPTY (Val 2) EMPTY EMPTY EMPTY EMPTY EMPTY (Val 120) None
    Sample.text_channel Sample.world
  = (Raise (ValueError "type parameter only supports ChannelType.NEWS and TEXT."),
     Sample.text_channel, Sample.world) ∧
  @VoiceChannel.edit Sample.server (Val "hall") EMPTY PyNone EMPTY EMPTY EMPTY EMPTY None
    Sample.voice_channel Sample.world
  = (Raise TypeError, Sample.voice_channel, Sample.world).
Proof.
  pose proof (@edit_local_errors Sample.server Sample.timestamps Sample.channel_types)
    as (Htext & Hvoice & _).
  split.
  - apply (proj1 (Htext EMPTY (Val 2) EMPTY EMPTY EMPTY EMPTY EMPTY (Val 120) None
                    Sample.text_channel Sample.world)).
    intros [Htype|[Htype|Htype]]; discriminate Htype.
  - apply (proj1 (Hvoice (Val "hall") EMPTY PyNone EMPTY EMPTY EMPTY EMPTY None
                    Sample.voice_channel Sample.world)).
    reflexivity.
Defined.
